(** * Novice application review (dictionary/views/admin/novices.py)

    A shallow embedding of the admin views that list pending novice
    applications, validate the selection of one applicant, and accept or
    decline the application.  The relational store is a record of tables
    (lists of rows in storage order); view code is written in a small
    state-and-exception monad in which writes made before an exception stay
    in the store, as in the source, which opens no transaction. *)

From Stdlib Require Import ZArith List String Bool Lia Permutation Sorted.
Import ListNotations.
Local Open Scope string_scope.
Local Open Scope Z_scope.

(** ** Data model *)

(** Timestamps are integers (seconds on some fixed clock); a nullable column
    is an [option]. *)
Definition timestamp := Z.

(** Author rows: the columns of the [Author] model that the views read or
    write (the model itself is declared in [models], outside novices.py). *)
Record Author := mkAuthor {
  id : Z;
  username : string;
  email : string;
  is_novice : bool;
  application_status : string;
  application_date : option timestamp;
  last_activity : option timestamp
}.

(** Modelled from the spec: the [Entry] model and its [objects_published]
    manager are declared outside novices.py; a content item has an
    authorship link and a published flag, and [objects_published] ranges
    over the rows whose flag is set. *)
Record Entry := mkEntry {
  entry_id : Z;
  author : Z;
  published : bool
}.

(** Modelled from the spec: the [Message] model is declared outside
    novices.py; a direct message has a sender, a recipient and a body. *)
Record Message := mkMessage {
  sender : Z;
  recipient : Z;
  body : string
}.

(** Modelled from the spec: the audit log is written by [utils.log_admin],
    outside novices.py; a record is keyed by actor, description, subject
    entity type and subject entity. *)
Record LogEntry := mkLogEntry {
  actor : Z;
  description : string;
  model_type : string;
  object_id : Z
}.

(** Outbound mail, the arguments of [send_mail]. *)
Record Mail := mkMail {
  subject : string;
  mail_body : string;
  from_email : string;
  recipient_list : list string
}.

(** Flash notifications of [django.contrib.messages]. *)
Inductive Level := level_error | level_success.

Record Notification := mkNotification {
  level : Level;
  text : string
}.

(** The effectful calls the views make, in the order they are made.
    [SendMail] is recorded when [send_mail] is called, whether or not the
    transport then delivers. *)
Inductive Effect :=
| SaveAuthor (row : Author)
| DeleteEntries (author_id : Z)
| LogAdmin (rec : LogEntry)
| Compose (msg : Message)
| SendMail (mail : Mail) (fail_silently : bool)
| Notify (note : Notification).

(** The store together with the request-scoped notification queue. *)
Record World := mkWorld {
  authors : list Author;
  entries : list Entry;
  messages : list Message;
  log_entries : list LogEntry;
  outbox : list Mail;
  flash : list Notification;
  effects : list Effect
}.

Definition set_authors (t : list Author) (w : World) : World :=
  mkWorld t (entries w) (messages w) (log_entries w) (outbox w) (flash w) (effects w).

Definition set_entries (t : list Entry) (w : World) : World :=
  mkWorld (authors w) t (messages w) (log_entries w) (outbox w) (flash w) (effects w).

Definition set_messages (t : list Message) (w : World) : World :=
  mkWorld (authors w) (entries w) t (log_entries w) (outbox w) (flash w) (effects w).

Definition set_log_entries (t : list LogEntry) (w : World) : World :=
  mkWorld (authors w) (entries w) (messages w) t (outbox w) (flash w) (effects w).

Definition set_outbox (t : list Mail) (w : World) : World :=
  mkWorld (authors w) (entries w) (messages w) (log_entries w) t (flash w) (effects w).

Definition set_flash (t : list Notification) (w : World) : World :=
  mkWorld (authors w) (entries w) (messages w) (log_entries w) (outbox w) t (effects w).

Definition record_effect (e : Effect) (w : World) : World :=
  mkWorld (authors w) (entries w) (messages w) (log_entries w) (outbox w) (flash w)
          (effects w ++ [e]).

(** Field setters for the in-memory model instance. *)
Definition set_application_status (s : string) (u : Author) : Author :=
  mkAuthor (id u) (username u) (email u) (is_novice u) s
           (application_date u) (last_activity u).

Definition set_is_novice (b : bool) (u : Author) : Author :=
  mkAuthor (id u) (username u) (email u) b (application_status u)
           (application_date u) (last_activity u).

Definition set_application_date (d : option timestamp) (u : Author) : Author :=
  mkAuthor (id u) (username u) (email u) (is_novice u) (application_status u)
           d (last_activity u).

(** ** Settings and backends *)

(** The exceptions the views can end in. *)
Inductive Exception :=
| Http404
| DoesNotExist
| MultipleObjectsReturned
| SMTPException
| ConnectionRefusedError
| ValueError
| TypeError.

(** The names imported from [utils.settings].  The module is outside
    novices.py, so the values are parameters; the two message templates are
    taken together with their [.format(username)] call. *)
Record Settings := mkSettings {
  time_threshold_24h : timestamp;
  application_accept_message : string -> string;
  application_decline_message : string -> string;
  GENERIC_SUPERUSER_ID : Z
}.

(** What the deployment decides: where the database places NULL in an
    ordering (PostgreSQL treats NULL as larger than every value, SQLite and
    MySQL as smaller), whether the mail transport delivers a mail, and the
    exception it raises when it does not (an [SMTPException], a
    [ConnectionRefusedError], ...). *)
Record Backend := mkBackend {
  nulls_high : bool;
  smtp_delivers : Mail -> bool;
  smtp_error : Mail -> Exception
}.

(** ** Exceptions and the view monad *)


Inductive Outcome (A : Type) :=
| Return (a : A)
| Raise (e : Exception).

Arguments Return {A} a.
Arguments Raise {A} e.

Definition M (A : Type) : Type := World -> World * Outcome A.

Definition ret {A} (a : A) : M A := fun w => (w, Return a).

Definition raise {A} (e : Exception) : M A := fun w => (w, Raise e).

Definition bind {A B} (m : M A) (k : A -> M B) : M B :=
  fun w =>
    match m w with
    | (w', Return a) => k a w'
    | (w', Raise e) => (w', Raise e)
    end.

Notation "x <- m ;; k" := (bind m (fun x => k))
  (at level 61, m at next level, right associativity).
Notation "m ;;; k" := (bind m (fun _ => k))
  (at level 61, right associativity).

(** ** Query helpers *)

Definition null_leb (high : bool) (x y : option Z) : bool :=
  match x, y with
  | Some a, Some b => a <=? b
  | None, None => true
  | None, Some _ => negb high
  | Some _, None => high
  end.

Definition opt_eqb (x y : option Z) : bool :=
  match x, y with
  | Some a, Some b => a =? b
  | None, None => true
  | _, _ => false
  end.

(** [field__gt=value]: a row whose column is NULL never matches. *)
Definition col_gt (x : option Z) (v : Z) : bool :=
  match x with Some a => v <? a | None => false end.

Definition col_lt (x : option Z) (v : Z) : bool :=
  match x with Some a => a <? v | None => false end.

Definition col_gte (x : option Z) (v : Z) : bool :=
  match x with Some a => v <=? a | None => false end.

Definition col_lte (x : option Z) (v : Z) : bool :=
  match x with Some a => a <=? v | None => false end.

Definition isnull {A} (x : option A) : bool :=
  match x with Some _ => false | None => true end.

(** [order_by]: a stable insertion sort of the rows in storage order. *)
Fixpoint insert_by {A} (leb : A -> A -> bool) (x : A) (l : list A) : list A :=
  match l with
  | [] => [x]
  | y :: l' => if leb x y then x :: l else y :: insert_by leb x l'
  end.

Fixpoint order_by {A} (leb : A -> A -> bool) (l : list A) : list A :=
  match l with
  | [] => []
  | x :: l' => insert_by leb x (order_by leb l')
  end.

(** [queryset[:limit]] *)
Definition slice {A} (limit : option nat) (l : list A) : list A :=
  match limit with
  | Some n => firstn n l
  | None => l
  end.

(** [obj in queryset]: model instances compare by primary key. *)
Definition contains (a : Author) (l : list Author) : bool :=
  existsb (fun b => id b =? id a) l.

(** The request as the views read it: the HTTP method, [request.user], the
    [username] captured from the URL, and the two POST fields. *)
Inductive Method := GET | HEAD | POST | OPTIONS | OtherMethod.

Record Request := mkRequest {
  method : Method;
  request_user : Author;
  kwargs_username : string;
  POST_operation : option string;
  POST_submit_type : option string
}.

(** [reverse(name, kwargs)] as a value; the URL patterns are declared
    outside novices.py. *)
Inductive Url :=
| admin_novice_list
| admin_novice_lookup (kw_username : option string).

Record Context := mkContext {
  title : string;
  context_entries : list Entry;
  next : option string
}.

Inductive Response :=
| Redirect (to : Url)
| Render (template_name : string) (context : Context)
| OptionsAllow
| MethodNotAllowed.

Definition query {A} (q : World -> A) : M A := fun w => (w, Return (q w)).

(** [Model.objects.get]: exactly one matching row, or an exception. *)
Definition objects_get (p : Author -> bool) (not_found : Exception) : M Author :=
  fun w =>
    match filter p (authors w) with
    | [] => (w, Raise not_found)
    | [a] => (w, Return a)
    | _ :: _ :: _ => (w, Raise MultipleObjectsReturned)
    end.

Definition get_object_or_404 (name : string) : M Author :=
  objects_get (fun a => (username a =? name)%string) Http404.

Definition get_by_id (pk : Z) : M Author :=
  objects_get (fun a => id a =? pk) DoesNotExist.

(** [Model.save]: UPDATE the row with this primary key, INSERT when there
    is none. *)
Definition save_row (u : Author) (t : list Author) : list Author :=
  if contains u t then map (fun a => if id a =? id u then u else a) t
  else t ++ [u].

Definition save (u : Author) : M unit :=
  fun w => (record_effect (SaveAuthor u) (set_authors (save_row u (authors w)) w), Return tt).

(** [Entry.objects_published.filter(author=user).delete()]: one bulk
    deletion on the table; no per-row [delete()] is called. *)
Definition delete_published_entries (u : Author) : M unit :=
  fun w =>
    (record_effect (DeleteEntries (id u))
       (set_entries (filter (fun e => negb (published e && (author e =? id u))) (entries w)) w),
     Return tt).

(** Modelled from the spec: [utils.log_admin] is defined outside
    novices.py; it appends one audit record keyed by actor, description,
    subject entity type and subject entity. *)
Definition log_admin (msg : string) (authorizer : Author) (model : string)
    (obj : Author) : M unit :=
  fun w =>
    let rec := mkLogEntry (id authorizer) msg model (id obj) in
    (record_effect (LogAdmin rec) (set_log_entries (log_entries w ++ [rec]) w), Return tt).

(** Modelled from the spec: [Message.objects.compose] is defined outside
    novices.py; it composes and stores one direct message with the given
    sender, recipient and body. *)
Definition compose (from to : Author) (text : string) : M Message :=
  fun w =>
    let msg := mkMessage (id from) (id to) text in
    (record_effect (Compose msg) (set_messages (messages w ++ [msg]) w), Return msg).

Definition notify (lv : Level) (msg : string) : M unit :=
  fun w =>
    let note := mkNotification lv msg in
    (record_effect (Notify note) (set_flash (flash w ++ [note]) w), Return tt).

Definition notifications_error : string -> M unit := notify level_error.
Definition notifications_success : string -> M unit := notify level_success.

(** [operation in [...]] for a POST field that may be missing. *)
Definition field_in (v : option string) (l : list string) : bool :=
  match v with
  | Some s => existsb (String.eqb s) l
  | None => false
  end.

Definition field_is (v : option string) (s : string) : bool :=
  match v with
  | Some x => String.eqb x s
  | None => false
  end.

(** [EmailMessage.recipients]: the addresses that are not empty. *)
Definition recipients (to : list string) : list string :=
  filter (fun addr => negb (addr =? "")%string) to.

Section Views.

Variable cfg : Settings.
Variable backend : Backend.

(** [django.core.mail.send_mail]: returns the number of mails delivered.
    A mail none of whose recipients is a non-empty address is not handed to
    the transport at all; otherwise, when the transport fails, its exception
    is raised, unless [fail_silently] is set. *)
Definition send_mail (subj msg from : string) (to : list string)
    (fail_silently : bool) : M Z :=
  fun w =>
    let mail := mkMail subj msg from to in
    let w1 := record_effect (SendMail mail fail_silently) w in
    match recipients to with
    | [] => (w1, Return 0)
    | _ :: _ =>
        if smtp_delivers backend mail then (set_outbox (outbox w1 ++ [mail]) w1, Return 1)
        else if fail_silently then (w1, Return 0)
        else (w1, Raise (smtp_error backend mail))
    end.

(** ** Queue builder *)

(** The [activity] annotation: the first matching [When] wins, and a row
    matching none gets NULL. *)
Definition activity (a : Author) : option Z :=
  if col_gte (last_activity a) (time_threshold_24h cfg) then Some 2
  else if col_lte (last_activity a) (time_threshold_24h cfg) then Some 1
  else None.

Definition eligible (a : Author) : bool :=
  negb (isnull (last_activity a)) && is_novice a && (application_status a =? "PN")%string.

(** [order_by("-activity", "application_date")] *)
Definition queue_leb (a b : Author) : bool :=
  if opt_eqb (activity a) (activity b)
  then null_leb (nulls_high backend) (application_date a) (application_date b)
  else null_leb (nulls_high backend) (activity b) (activity a).

Definition novice_list (limit : option nat) (w : World) : list Author :=
  let novice_queryset := order_by queue_leb (filter eligible (authors w)) in
  slice limit novice_queryset.

(** ** NoviceLookup *)

(** Lines 63-71 of [dispatch]: the value of [self.novice] when line 73 is
    reached. *)
Definition select_novice (request : Request) : M (option Author) :=
  novice <- get_object_or_404 (kwargs_username request) ;;
  novices <- query (novice_list None) ;;
  if negb (contains novice novices) then
    notifications_error "kullanıcı çaylak onay listesinde değil." ;;;
    ret None
  else if negb (contains novice (slice (Some 10%nat) novices)) then
    notifications_error "kullanıcı çaylak onay listesinin başında değil" ;;;
    ret None
  else ret (Some novice).

Definition get_queryset (novice : Author) : M (list Entry) :=
  query (fun w =>
    slice (Some 10%nat)
      (order_by (fun e1 e2 => entry_id e1 <=? entry_id e2)
         (filter (fun e => published e && (author e =? id novice)) (entries w)))).

(** The filter shared by the two searches of [get_next_username]; they
    differ in how [last_activity] is compared with the threshold. *)
Definition later_candidate (activity_cmp : option Z -> Z -> bool) (d : timestamp)
    (a : Author) : bool :=
  is_novice a && (application_status a =? "PN")%string
  && activity_cmp (last_activity a) (time_threshold_24h cfg)
  && col_gt (application_date a) d.

(** One search: the first row, by [application_date], that passes the
    filter.  Django rejects [None] as the value of a [__gt] lookup when the
    filter is built. *)
Definition later_applicant (activity_cmp : option Z -> Z -> bool) (since : option timestamp)
    : M (option Author) :=
  match since with
  | None => raise ValueError
  | Some d =>
      query (fun w =>
        hd_error
          (order_by (fun a b => null_leb (nulls_high backend) (application_date a) (application_date b))
             (filter (later_candidate activity_cmp d) (authors w))))
  end.

(** Lines 107-120: the value of [next_novice] when line 122 is reached.
    Comparing a missing [last_activity] with the threshold is a
    [TypeError]. *)
Definition next_novice (novice : Author) : M (option Author) :=
  match last_activity novice with
  | None => raise TypeError
  | Some la =>
      found <- (if time_threshold_24h cfg <=? la
                then later_applicant col_gt (application_date novice)
                else ret None) ;;
      match found with
      | Some a => ret (Some a)
      | None => later_applicant col_lt (application_date novice)
      end
  end.

Definition get_next_username (novice : Author) : M (option string) :=
  found <- next_novice novice ;;
  ret (option_map username found).

Definition get_context_data (novice : Author) (object_list : list Entry) : M Context :=
  next_username <- get_next_username novice ;;
  ret (mkContext (username novice ++ " isimli çaylağın ilk 10 entry'si") object_list next_username).

Definition get (novice : Author) : M Response :=
  object_list <- get_queryset novice ;;
  context <- get_context_data novice object_list ;;
  ret (Render "dictionary/admin/novice_lookup.html" context).

Definition accept_application (novice : Author) (request : Request) : M bool :=
  let user := novice in
  let user := set_application_status "AP" user in
  let user := set_is_novice false user in
  save user ;;;
  let admin_info_msg := username user ++ " nickli kullanıcının yazarlık talebi kabul edildi" in
  log_admin admin_info_msg (request_user request) "Author" user ;;;
  superuser <- get_by_id (GENERIC_SUPERUSER_ID cfg) ;;
  compose superuser user (application_accept_message cfg (username user)) ;;;
  send_mail "yazarlık başvurunuz kabul edildi" (application_accept_message cfg (username user))
            "Django Sözlük <correct@email.com>" [email user] false ;;;
  notifications_success admin_info_msg ;;;
  ret true.

Definition decline_application (novice : Author) (request : Request) : M bool :=
  let user := novice in
  delete_published_entries user ;;;
  let user := set_application_status "OH" user in
  let user := set_application_date None user in
  save user ;;;
  let admin_info_msg := username user ++ " nickli kullanıcının yazarlık talebi kabul reddedildi" in
  log_admin admin_info_msg (request_user request) "Author" user ;;;
  superuser <- get_by_id (GENERIC_SUPERUSER_ID cfg) ;;
  compose superuser user (application_decline_message cfg (username user)) ;;;
  send_mail "yazarlık başvurunuz reddedildi" (application_decline_message cfg (username user))
            "Django Sözlük <correct@email.com>" [email user] false ;;;
  notifications_success admin_info_msg ;;;
  ret true.

Definition post (novice : Author) (request : Request) : M Response :=
  let operation := POST_operation request in
  if negb (field_in operation ["accept"; "decline"]) then
    notifications_error "Geçersiz bir işlem seçtiniz." ;;;
    ret (Redirect (admin_novice_lookup (Some (username novice))))
  else
    (if field_is operation "accept" then accept_application novice request
     else if field_is operation "decline" then decline_application novice request
     else ret true) ;;;
    if field_is (POST_submit_type request) "redirect_back" then
      ret (Redirect admin_novice_list)
    else
      ret (Redirect (admin_novice_lookup (POST_submit_type request))).

(** [super().dispatch]: the generic view routes the request to the handler
    named after its HTTP method.  HEAD is served by the GET handler, OPTIONS
    by the generic view itself, and a method the view has no handler for
    (PUT, PATCH, DELETE, TRACE) is answered with 405. *)
Definition View_dispatch (novice : Author) (request : Request) : M Response :=
  match method request with
  | GET | HEAD => get novice
  | POST => post novice request
  | OPTIONS => ret OptionsAllow
  | OtherMethod => ret MethodNotAllowed
  end.

(** The body of [NoviceLookup.dispatch]; the permission decorator around it
    belongs to the framework and is not modelled. *)
Definition dispatch (request : Request) : M Response :=
  selected <- select_novice request ;;
  match selected with
  | None => ret (Redirect admin_novice_list)
  | Some novice => View_dispatch novice request
  end.

End Views.


(** ** NoviceList *)

(** What the overview template is given: the title, the rows of
    [get_queryset] and the number of pending applications. *)
Record ListContext := mkListContext {
  list_title : string;
  object_list : list Author;
  novice_count : nat
}.

Inductive ListResponse :=
| RenderList (template_name : string) (context : ListContext).

Module NoviceList.
Section View.

Variable cfg : Settings.
Variable backend : Backend.

Definition get_queryset : M (list Author) :=
  query (novice_list cfg backend (Some 10%nat)).

(** [novice_list().count()] counts the rows of the unlimited queue. *)
Definition get_context_data (rows : list Author) : M ListContext :=
  count <- query (fun w => List.length (novice_list cfg backend None w)) ;;
  ret (mkListContext "Çaylak onay listesi" rows count).

Definition get : M ListResponse :=
  rows <- get_queryset ;;
  context <- get_context_data rows ;;
  ret (RenderList "dictionary/admin/novices.html" context).

End View.
End NoviceList.
(** ** Specification vocabulary *)

Section Vocabulary.

Variable cfg : Settings.
Variable backend : Backend.

(** The activity tier in the words of the specification. *)
Definition tier_of (la : timestamp) : Z :=
  if time_threshold_24h cfg <=? la then 2 else 1.

(** Ascending [application_date], NULL placed as the database places it. *)
Definition date_ascending (a b : Author) : Prop :=
  match application_date a, application_date b with
  | Some x, Some y => x <= y
  | None, None => True
  | None, Some _ => nulls_high backend = false
  | Some _, None => nulls_high backend = true
  end.

(** [a] may stand before [b] in the queue: higher tier first, earlier
    application first within a tier. *)
Definition ranks_before (a b : Author) : Prop :=
  match last_activity a, last_activity b with
  | Some la, Some lb =>
      tier_of lb < tier_of la \/ (tier_of la = tier_of lb /\ date_ascending a b)
  | _, _ => False
  end.

(** The applicant is one of the first [k] rows of the queue (rows are
    identified by primary key). *)
Definition ranked_within (k : nat) (novice : Author) (queue : list Author) : Prop :=
  exists i a, (i < k)%nat /\ nth_error queue i = Some a /\ id a = id novice.

Definition queued (novice : Author) (queue : list Author) : Prop :=
  exists a, In a queue /\ id a = id novice.

(** The mails the two decisions hand to [send_mail]. *)
Definition accept_mail (novice : Author) : Mail :=
  mkMail "yazarlık başvurunuz kabul edildi"
         (application_accept_message cfg (username novice))
         "Django Sözlük <correct@email.com>" [email novice].

Definition decline_mail (novice : Author) : Mail :=
  mkMail "yazarlık başvurunuz reddedildi"
         (application_decline_message cfg (username novice))
         "Django Sözlük <correct@email.com>" [email novice].

(** Candidates of the two searches for the next applicant. *)
Definition pending_novice (a : Author) : Prop :=
  is_novice a = true /\ application_status a = "PN".

Definition applied_after (d : timestamp) (a : Author) : Prop :=
  exists x, application_date a = Some x /\ d < x.

Definition active_above (a : Author) : Prop :=
  exists la, last_activity a = Some la /\ time_threshold_24h cfg < la.

Definition active_below (a : Author) : Prop :=
  exists la, last_activity a = Some la /\ la < time_threshold_24h cfg.

Definition later_above (d : timestamp) (a : Author) : Prop :=
  pending_novice a /\ active_above a /\ applied_after d a.

Definition later_below (d : timestamp) (a : Author) : Prop :=
  pending_novice a /\ active_below a /\ applied_after d a.

End Vocabulary.

(** [a] is a row of [t] satisfying [P] whose application date is earliest
    among such rows. *)
Definition earliest_of (P : Author -> Prop) (t : list Author) (a : Author) : Prop :=
  In a t /\ P a /\
  forall b, In b t -> P b ->
    exists x y, application_date a = Some x /\ application_date b = Some y /\ x <= y.

(** The world after a request was turned down with an error notification:
    the notification is queued and nothing else changes. *)
Definition rejected (msg : string) (w : World) : World :=
  record_effect (Notify (mkNotification level_error msg))
    (set_flash (flash w ++ [mkNotification level_error msg]) w).

(** A decision that returned and added exactly one mail to the outbox. *)
Definition returned_with_one_mail (before : World) (result : World * Outcome bool) : Prop :=
  exists mail,
    snd result = Return true /\ outbox (fst result) = (outbox before ++ [mail])%list.

(** The order of an accept's effects as the specification lists them:
    notifications aside, the save, then the direct message, then the mail,
    then the audit record. *)
Definition is_notification (e : Effect) : bool :=
  match e with Notify _ => true | _ => false end.

Definition store_and_mail_effects (es : list Effect) : list Effect :=
  filter (fun e => negb (is_notification e)) es.

Definition accept_order_as_listed (es : list Effect) : Prop :=
  exists user msg mail silently rec,
    store_and_mail_effects es =
    [SaveAuthor user; Compose msg; SendMail mail silently; LogAdmin rec].

(** ** Sample data *)

Module Sample.

Definition cfg : Settings :=
  mkSettings 100 (fun u => "welcome " ++ u) (fun u => "sorry " ++ u) 1.

Definition backend : Backend := mkBackend true (fun _ => true) (fun _ => SMTPException).
Definition backend_down : Backend :=
  mkBackend true (fun _ => false) (fun _ => ConnectionRefusedError).

Definition root : Author := mkAuthor 1 "root" "root@example.org" false "AP" None (Some 500).
Definition alice : Author := mkAuthor 2 "alice" "alice@example.org" true "PN" (Some 1) (Some 100).
Definition bob : Author := mkAuthor 3 "bob" "bob@example.org" true "PN" (Some 2) (Some 150).
Definition carol : Author := mkAuthor 4 "carol" "carol@example.org" true "PN" (Some 1) (Some 50).

(** An applicant who registered without an email address. *)
Definition dora : Author := mkAuthor 5 "dora" "" true "PN" (Some 3) (Some 120).

Definition world : World :=
  mkWorld [carol; root; bob; alice]
          [mkEntry 1 2 true; mkEntry 2 2 false; mkEntry 3 3 true]
          [] [] [] [] [].

(** Twelve applicants of the same tier, applied at 1, 2, ..., 12. *)
Definition applicant (n : Z) (name : string) : Author :=
  mkAuthor (10 + n) name (name ++ "@example.org") true "PN" (Some n) (Some 200).

Definition crowd : World :=
  mkWorld [applicant 1 "n01"; applicant 2 "n02"; applicant 3 "n03"; applicant 4 "n04";
           applicant 5 "n05"; applicant 6 "n06"; applicant 7 "n07"; applicant 8 "n08";
           applicant 9 "n09"; applicant 10 "n10"; applicant 11 "n11"; applicant 12 "n12"]
          [] [] [] [] [] [].

Definition open_n11 : Request := mkRequest GET root "n11" None None.

Definition accept_alice : Request := mkRequest POST root "alice" (Some "accept") (Some "bob").
Definition decline_alice : Request :=
  mkRequest POST root "alice" (Some "decline") (Some "redirect_back").
Definition office : World := mkWorld [root; dora; bob] [mkEntry 7 5 true] [] [] [] [] [].
Definition accept_dora : Request := mkRequest POST root "dora" (Some "accept") (Some "bob").
Definition decline_dora : Request :=
  mkRequest POST root "dora" (Some "decline") (Some "redirect_back").
Definition delete_alice : Request := mkRequest POST root "alice" (Some "delete") (Some "bob").

End Sample.

(** [x] stands somewhere before [y] in [l]. *)
Definition stands_before {A} (x y : A) (l : list A) : Prop :=
  exists l1 l2 l3, l = (l1 ++ x :: l2 ++ y :: l3)%list.

(** The filter that takes the rows with a given primary key out of a
    list. *)
Definition without (pk : Z) (l : list Author) : list Author :=
  filter (fun a => negb (id a =? pk)) l.

(** * Properties *)

(** ** Sorting *)

Section OrderBy.

Context {A : Type}.
Variable leb : A -> A -> bool.

Lemma insert_by_perm x l : Permutation (insert_by leb x l) (x :: l).
Proof.
  induction l as [|y l IH]; simpl.
  - apply Permutation_refl.
  - destruct (leb x y).
    + apply Permutation_refl.
    + apply Permutation_trans with (y :: x :: l).
      * apply perm_skip. exact IH.
      * apply perm_swap.
Qed.

Lemma order_by_perm l : Permutation (order_by leb l) l.
Proof.
  induction l as [|x l IH]; simpl.
  - apply perm_nil.
  - apply Permutation_trans with (x :: order_by leb l).
    + apply insert_by_perm.
    + apply perm_skip. exact IH.
Qed.

Lemma order_by_In l x : In x (order_by leb l) <-> In x l.
Proof.
  split; apply Permutation_in.
  - apply order_by_perm.
  - apply Permutation_sym, order_by_perm.
Qed.

Hypothesis leb_total : forall a b, leb a b = true \/ leb b a = true.
Hypothesis leb_trans : forall a b c, leb a b = true -> leb b c = true -> leb a c = true.

Lemma insert_by_sorted x l :
  StronglySorted (fun a b => leb a b = true) l ->
  StronglySorted (fun a b => leb a b = true) (insert_by leb x l).
Proof.
  induction 1 as [|y l Hs IH Hy]; simpl.
  - constructor; [constructor | constructor].
  - destruct (leb x y) eqn:E.
    + constructor.
      * constructor; assumption.
      * constructor; [exact E|].
        rewrite Forall_forall in *. intros z Hz. eapply leb_trans; eauto.
    + constructor; [exact IH|].
      rewrite Forall_forall in *. intros z Hz.
      apply (Permutation_in _ (insert_by_perm x l)) in Hz.
      destruct Hz as [<-|Hz]; [|auto].
      destruct (leb_total y x) as [H|H]; [exact H|congruence].
Qed.

Lemma order_by_sorted l : StronglySorted (fun a b => leb a b = true) (order_by leb l).
Proof.
  induction l as [|x l IH]; simpl.
  - constructor.
  - apply insert_by_sorted. exact IH.
Qed.

End OrderBy.

(** The head of a sorted selection is a least element of it. *)
Lemma hd_order_by_least {A} (leb : A -> A -> bool) (p : A -> bool) (l : list A) :
  (forall a b, leb a b = true \/ leb b a = true) ->
  (forall a b c, leb a b = true -> leb b c = true -> leb a c = true) ->
  match hd_error (order_by leb (filter p l)) with
  | Some a => In a l /\ p a = true /\ forall b, In b l -> p b = true -> leb a b = true
  | None => forall b, In b l -> p b = false
  end.
Proof.
  intros Htot Htr.
  pose proof (order_by_sorted leb Htot Htr (filter p l)) as Hs.
  pose proof (order_by_In leb (filter p l)) as Hin.
  destruct (order_by leb (filter p l)) as [|a q]; simpl.
  - intros b Hb. destruct (p b) eqn:E; [|reflexivity].
    exfalso. apply (Hin b). apply filter_In. split; assumption.
  - assert (Ha : In a (filter p l)) by (apply Hin; left; reflexivity).
    apply filter_In in Ha. destruct Ha as [Ha1 Ha2].
    split; [exact Ha1|]. split; [exact Ha2|].
    intros b Hb Hp.
    assert (Hb' : In b (a :: q)) by (apply Hin, filter_In; split; assumption).
    destruct Hb' as [<-|Hb'].
    + destruct (Htot a a); assumption.
    + inversion Hs as [|? ? _ Hall]; subst.
      rewrite Forall_forall in Hall. apply Hall. exact Hb'.
Qed.

Lemma null_leb_total h x y : null_leb h x y = true \/ null_leb h y x = true.
Proof.
  destruct x, y, h; simpl; auto.
  all: destruct (Z.leb_spec z z0); auto; right; apply Z.leb_le; lia.
Qed.

Lemma null_leb_trans h x y z :
  null_leb h x y = true -> null_leb h y z = true -> null_leb h x z = true.
Proof.
  destruct x, y, z, h; simpl; try congruence.
  all: rewrite !Z.leb_le; lia.
Qed.

(** ** Queue builder *)

Section QueueBuilder.

Variable cfg : Settings.
Variable backend : Backend.

Lemma lex_total h (ta tb da db : option Z) :
  (if opt_eqb ta tb then null_leb h da db else null_leb h tb ta) = true \/
  (if opt_eqb tb ta then null_leb h db da else null_leb h ta tb) = true.
Proof.
  destruct ta as [x|], tb as [y|]; simpl;
    try (apply null_leb_total); try (destruct h; simpl; auto).
  all: destruct (Z.eqb_spec x y), (Z.eqb_spec y x); try lia;
    try (apply null_leb_total).
  all: destruct (Z.leb_spec x y); auto; right; apply Z.leb_le; lia.
Qed.

Lemma lex_trans h (ta tb tc da db dc : option Z) :
  (if opt_eqb ta tb then null_leb h da db else null_leb h tb ta) = true ->
  (if opt_eqb tb tc then null_leb h db dc else null_leb h tc tb) = true ->
  (if opt_eqb ta tc then null_leb h da dc else null_leb h tc ta) = true.
Proof.
  destruct ta as [x|], tb as [y|], tc as [z|]; simpl;
    repeat match goal with
           | |- context [?u =? ?v] => destruct (Z.eqb_spec u v)
           end;
    subst; try lia; try (apply null_leb_trans); intros H1 H2;
    try (destruct h; simpl in *; congruence).
  all: try (rewrite Z.leb_le in *; lia).
Qed.

Lemma queue_leb_total a b :
  queue_leb cfg backend a b = true \/ queue_leb cfg backend b a = true.
Proof. apply lex_total. Qed.

Lemma queue_leb_trans a b c :
  queue_leb cfg backend a b = true -> queue_leb cfg backend b c = true ->
  queue_leb cfg backend a c = true.
Proof. apply lex_trans. Qed.

Lemma eligible_spec a :
  eligible a = true <->
  is_novice a = true /\ application_status a = "PN" /\ last_activity a <> None.
Proof.
  unfold eligible. rewrite !andb_true_iff, String.eqb_eq.
  destruct (last_activity a); simpl; intuition congruence.
Qed.

(** The annotation computed by the two [When] clauses is the tier of the
    specification; a row whose activity equals the threshold matches the
    first clause. *)
Lemma activity_tier a la :
  last_activity a = Some la -> activity cfg a = Some (tier_of cfg la).
Proof.
  intros E. unfold activity, tier_of. rewrite E. simpl.
  destruct (Z.leb_spec (time_threshold_24h cfg) la); [reflexivity|].
  destruct (Z.leb_spec la (time_threshold_24h cfg)); [reflexivity|lia].
Qed.

Lemma queue_leb_ranks a b :
  eligible a = true -> eligible b = true ->
  queue_leb cfg backend a b = true -> ranks_before cfg backend a b.
Proof.
  intros Ha Hb. apply eligible_spec in Ha, Hb.
  destruct Ha as (_ & _ & Ha), Hb as (_ & _ & Hb).
  unfold queue_leb, ranks_before, date_ascending.
  destruct (last_activity a) as [la|] eqn:Ea; [|congruence].
  destruct (last_activity b) as [lb|] eqn:Eb; [|congruence].
  rewrite (activity_tier a la Ea), (activity_tier b lb Eb). simpl.
  destruct (Z.eqb_spec (tier_of cfg la) (tier_of cfg lb)) as [E|E].
  - intros H. right. split; [exact E|].
    destruct (application_date a), (application_date b), (nulls_high backend);
      simpl in H; try congruence; try (apply Z.leb_le in H); auto.
  - simpl. rewrite Z.leb_le. intros H. left. lia.
Qed.

Lemma StronglySorted_weaken {A} (R R' : A -> A -> Prop) l :
  (forall a b, In a l -> In b l -> R a b -> R' a b) ->
  StronglySorted R l -> StronglySorted R' l.
Proof.
  intros Hw Hs. induction Hs as [|x l Hs IH Hx].
  - constructor.
  - constructor.
    + apply IH. intros a b Ha Hb. apply Hw; right; assumption.
    + rewrite Forall_forall in *. intros y Hy.
      apply Hw; [left; reflexivity | right; exact Hy | apply Hx; exact Hy].
Qed.

Lemma novice_list_perm w :
  Permutation (novice_list cfg backend None w) (filter (eligible) (authors w)).
Proof. unfold novice_list. simpl. apply order_by_perm. Qed.

Lemma novice_list_In w a :
  In a (novice_list cfg backend None w) <-> In a (authors w) /\ eligible a = true.
Proof.
  unfold novice_list. simpl. rewrite order_by_In. apply filter_In.
Qed.

Lemma novice_list_sorted w :
  StronglySorted (ranks_before cfg backend) (novice_list cfg backend None w).
Proof.
  apply StronglySorted_weaken with (R := fun a b => queue_leb cfg backend a b = true).
  - intros a b Ha Hb. apply novice_list_In in Ha, Hb.
    apply queue_leb_ranks; tauto.
  - unfold novice_list. simpl.
    apply order_by_sorted; [apply queue_leb_total | apply queue_leb_trans].
Qed.

Lemma filter_all {A} (p : A -> bool) l :
  (forall x, In x l -> p x = true) -> filter p l = l.
Proof.
  induction l as [|x l IH]; simpl; intros H; [reflexivity|].
  rewrite (H x (or_introl eq_refl)). f_equal. apply IH. intros y Hy. apply H. right. exact Hy.
Qed.

(** Two applicants active since the threshold and one inactive, whatever the
    storage order of their rows. *)
Lemma queue_example_order w a b c la lb lc d1 d2 :
  Permutation (authors w) [a; b; c] ->
  eligible a = true -> eligible b = true -> eligible c = true ->
  last_activity a = Some la -> time_threshold_24h cfg <= la ->
  last_activity b = Some lb -> time_threshold_24h cfg <= lb ->
  last_activity c = Some lc -> lc < time_threshold_24h cfg ->
  application_date a = Some d1 -> application_date b = Some d2 ->
  application_date c = Some d1 -> d1 < d2 ->
  novice_list cfg backend None w = [a; b; c].
Proof.
  intros Hp Ea Eb Ec La Ta Lb Tb Lc Tc Da Db Dc Hd.
  pose proof (novice_list_perm w) as Hq.
  pose proof (novice_list_sorted w) as Hs.
  rewrite filter_all in Hq.
  2:{ intros x Hx. apply (Permutation_in _ Hp) in Hx.
      destruct Hx as [<-|[<-|[<-|[]]]]; assumption. }
  assert (Hq' : Permutation (novice_list cfg backend None w) [a; b; c])
    by (eapply Permutation_trans; eassumption).
  clear Hq Hp.
  assert (Nba : ~ ranks_before cfg backend b a).
  { unfold ranks_before, date_ascending, tier_of. rewrite La, Lb, Da, Db.
    destruct (Z.leb_spec (time_threshold_24h cfg) la),
             (Z.leb_spec (time_threshold_24h cfg) lb); lia. }
  assert (Nca : ~ ranks_before cfg backend c a).
  { unfold ranks_before, date_ascending, tier_of. rewrite La, Lc.
    destruct (Z.leb_spec (time_threshold_24h cfg) la),
             (Z.leb_spec (time_threshold_24h cfg) lc); lia. }
  assert (Ncb : ~ ranks_before cfg backend c b).
  { unfold ranks_before, date_ascending, tier_of. rewrite Lb, Lc.
    destruct (Z.leb_spec (time_threshold_24h cfg) lb),
             (Z.leb_spec (time_threshold_24h cfg) lc); lia. }
  assert (Nab : a <> b) by (intros ->; rewrite Da in Db; injection Db; lia).
  assert (Nac : a <> c) by (intros ->; rewrite La in Lc; injection Lc; lia).
  assert (Nbc : b <> c) by (intros ->; rewrite Lb in Lc; injection Lc; lia).
  pose proof (Permutation_length Hq') as Hlen.
  destruct (novice_list cfg backend None w) as [|x [|y [|z [|? ?]]]];
    simpl in Hlen; try discriminate.
  assert (Ia : In a [x; y; z]) by (apply (Permutation_in _ (Permutation_sym Hq')); simpl; auto).
  assert (Ib : In b [x; y; z]) by (apply (Permutation_in _ (Permutation_sym Hq')); simpl; auto).
  assert (Ic : In c [x; y; z]) by (apply (Permutation_in _ (Permutation_sym Hq')); simpl; auto).
  inversion Hs as [|? ? Hs1 Hx]; subst.
  inversion Hs1 as [|? ? _ Hy]; subst.
  inversion Hx as [|? ? Rxy Hx']; subst.
  inversion Hx' as [|? ? Rxz _]; subst.
  inversion Hy as [|? ? Ryz _]; subst.
  simpl in Ia, Ib, Ic.
  destruct Ia as [<-|[<-|[<-|[]]]]; destruct Ib as [<-|[<-|[<-|[]]]];
    destruct Ic as [<-|[<-|[<-|[]]]]; try congruence; try contradiction.
Qed.

(** C1.  The unlimited queue holds exactly the rows that are novices, pending
    and have a last activity (each once, none added); it is ordered by
    activity tier descending, then application date ascending; the tier of a
    row is 2 when its last activity is at or after the threshold (equality
    included) and 1 otherwise; and two active applicants dated Jan 1 and
    Jan 2 followed by an inactive one dated Jan 1 come out in that order. *)
Theorem novice_list_unlimited (w : World) :
  let queue := novice_list cfg backend None w in
  Permutation queue (filter eligible (authors w)) /\
  (forall a, In a queue <->
     In a (authors w) /\ is_novice a = true /\ application_status a = "PN" /\
     last_activity a <> None) /\
  StronglySorted (ranks_before cfg backend) queue /\
  (forall a la, In a queue -> last_activity a = Some la ->
     activity cfg a = Some (tier_of cfg la) /\
     (time_threshold_24h cfg <= la -> tier_of cfg la = 2) /\
     (la < time_threshold_24h cfg -> tier_of cfg la = 1)) /\
  (forall a b c la lb lc d1 d2,
     Permutation (authors w) [a; b; c] ->
     eligible a = true -> eligible b = true -> eligible c = true ->
     last_activity a = Some la -> time_threshold_24h cfg <= la ->
     last_activity b = Some lb -> time_threshold_24h cfg <= lb ->
     last_activity c = Some lc -> lc < time_threshold_24h cfg ->
     application_date a = Some d1 -> application_date b = Some d2 ->
     application_date c = Some d1 -> d1 < d2 ->
     queue = [a; b; c]).
Proof.
  cbv zeta. split; [apply novice_list_perm|].
  split.
  { intros a. rewrite novice_list_In, eligible_spec. tauto. }
  split; [apply novice_list_sorted|].
  split.
  { intros a la _ E. split; [apply activity_tier; exact E|].
    unfold tier_of.
    destruct (Z.leb_spec (time_threshold_24h cfg) la); split; intros; lia. }
  intros a b c la lb lc d1 d2. apply queue_example_order.
Qed.

End QueueBuilder.

(** ** Store primitives *)

Lemma contains_spec a l : contains a l = true <-> exists b, In b l /\ id b = id a.
Proof.
  unfold contains. rewrite existsb_exists.
  split; intros (b & Hb & E); exists b; split; auto; apply Z.eqb_eq; exact E.
Qed.

Lemma save_row_stored u t :
  contains u t = true ->
  save_row u t = map (fun a => if id a =? id u then u else a) t.
Proof. intros H. unfold save_row. rewrite H. reflexivity. Qed.

Lemma filter_id_map u k t :
  filter (fun a => id a =? k) (map (fun a => if id a =? id u then u else a) t) =
  map (fun a => if id a =? id u then u else a) (filter (fun a => id a =? k) t).
Proof.
  induction t as [|a t IH]; simpl; [reflexivity|].
  destruct (Z.eqb_spec (id a) (id u)) as [E|E].
  - replace (id u =? k) with (id a =? k) by (rewrite E; reflexivity).
    destruct (id a =? k); simpl; rewrite IH; [|reflexivity].
    destruct (Z.eqb_spec (id a) (id u)); [reflexivity|contradiction].
  - destruct (id a =? k); simpl; rewrite IH; [|reflexivity].
    destruct (Z.eqb_spec (id a) (id u)); [contradiction|reflexivity].
Qed.

Lemma get_by_id_inv k w w' s :
  get_by_id k w = (w', Return s) ->
  w' = w /\ filter (fun a => id a =? k) (authors w) = [s].
Proof.
  unfold get_by_id, objects_get.
  destruct (filter (fun a => id a =? k) (authors w)) as [|a [|b l]]; intros H;
    inversion H; subst; auto.
Qed.

Lemma get_by_id_after_save k u t s :
  contains u t = true ->
  filter (fun a => id a =? k) t = [s] ->
  filter (fun a => id a =? k) (save_row u t) = [if id s =? id u then u else s].
Proof.
  intros Hc Hf. rewrite (save_row_stored u t Hc), filter_id_map, Hf. reflexivity.
Qed.

Lemma filter_singleton_id k t s :
  filter (fun a => id a =? k) t = [s] -> id s = k.
Proof.
  intros H. assert (Hin : In s (filter (fun a => id a =? k) t)) by (rewrite H; left; reflexivity).
  apply filter_In in Hin. apply Z.eqb_eq. tauto.
Qed.

Lemma nth_error_map_row {A} (f : A -> A) l i a :
  nth_error l i = Some a -> nth_error (map f l) i = Some (f a).
Proof. intros H. rewrite nth_error_map, H. reflexivity. Qed.

Lemma bind_raises {A B} (m : M A) (k : A -> M B) w e :
  snd (m w) = Raise e -> snd (bind m k w) = Raise e.
Proof. unfold bind. destruct (m w) as [w' [a|e']]; simpl; congruence. Qed.

(** ** Decision transitions *)

Section Transitions.

Variable cfg : Settings.
Variable backend : Backend.

(** [accept_application], step by step. *)
Lemma accept_application_unfold novice request w :
  let user := set_is_novice false (set_application_status "AP" novice) in
  let info := username novice ++ " nickli kullanıcının yazarlık talebi kabul edildi" in
  let rec := mkLogEntry (id (request_user request)) info "Author" (id novice) in
  let w2 := record_effect (LogAdmin rec)
              (set_log_entries (log_entries w ++ [rec])
                 (record_effect (SaveAuthor user)
                    (set_authors (save_row user (authors w)) w))) in
  accept_application cfg backend novice request w =
  match filter (fun a => id a =? GENERIC_SUPERUSER_ID cfg) (authors w2) with
  | [] => (w2, Raise DoesNotExist)
  | [s] =>
      let msg := mkMessage (id s) (id novice) (application_accept_message cfg (username novice)) in
      let w3 := record_effect (SendMail (accept_mail cfg novice) false)
                  (record_effect (Compose msg) (set_messages (messages w2 ++ [msg]) w2)) in
      if (email novice =? "")%string
      then (record_effect (Notify (mkNotification level_success info))
              (set_flash (flash w3 ++ [mkNotification level_success info]) w3),
            Return true)
      else if smtp_delivers backend (accept_mail cfg novice)
      then (record_effect (Notify (mkNotification level_success info))
              (set_flash (flash w3 ++ [mkNotification level_success info])
                 (set_outbox (outbox w3 ++ [accept_mail cfg novice]) w3)),
            Return true)
      else (w3, Raise (smtp_error backend (accept_mail cfg novice)))
  | _ :: _ :: _ => (w2, Raise MultipleObjectsReturned)
  end.
Proof.
  cbv zeta. unfold accept_application, bind, save, log_admin, get_by_id, objects_get,
    compose, send_mail, recipients, notifications_success, notify, ret.
  cbn -[filter String.append save_row String.eqb].
  destruct (filter (fun a => id a =? _) _) as [|s [|s' l]]; try reflexivity.
  cbn -[String.append save_row String.eqb]. unfold accept_mail.
  destruct (email novice =? "")%string; cbn -[String.append save_row]; [reflexivity|].
  destruct (smtp_delivers backend _); reflexivity.
Qed.

(** [decline_application], step by step. *)
Lemma decline_application_unfold novice request w :
  let user := set_application_date None (set_application_status "OH" novice) in
  let info := username novice ++ " nickli kullanıcının yazarlık talebi kabul reddedildi" in
  let rec := mkLogEntry (id (request_user request)) info "Author" (id novice) in
  let w1 := record_effect (DeleteEntries (id novice))
              (set_entries
                 (filter (fun e => negb (published e && (author e =? id novice))) (entries w)) w) in
  let w2 := record_effect (LogAdmin rec)
              (set_log_entries (log_entries w1 ++ [rec])
                 (record_effect (SaveAuthor user)
                    (set_authors (save_row user (authors w1)) w1))) in
  decline_application cfg backend novice request w =
  match filter (fun a => id a =? GENERIC_SUPERUSER_ID cfg) (authors w2) with
  | [] => (w2, Raise DoesNotExist)
  | [s] =>
      let msg := mkMessage (id s) (id novice) (application_decline_message cfg (username novice)) in
      let w3 := record_effect (SendMail (decline_mail cfg novice) false)
                  (record_effect (Compose msg) (set_messages (messages w2 ++ [msg]) w2)) in
      if (email novice =? "")%string
      then (record_effect (Notify (mkNotification level_success info))
              (set_flash (flash w3 ++ [mkNotification level_success info]) w3),
            Return true)
      else if smtp_delivers backend (decline_mail cfg novice)
      then (record_effect (Notify (mkNotification level_success info))
              (set_flash (flash w3 ++ [mkNotification level_success info])
                 (set_outbox (outbox w3 ++ [decline_mail cfg novice]) w3)),
            Return true)
      else (w3, Raise (smtp_error backend (decline_mail cfg novice)))
  | _ :: _ :: _ => (w2, Raise MultipleObjectsReturned)
  end.
Proof.
  cbv zeta. unfold decline_application, bind, delete_published_entries, save, log_admin,
    get_by_id, objects_get, compose, send_mail, recipients, notifications_success, notify, ret.
  cbn -[filter String.append save_row String.eqb].
  change (filter (fun addr => negb (addr =? "")%string) [email novice])
    with (if negb (email novice =? "")%string then [email novice] else []).
  destruct (filter (fun a => id a =? _) _) as [|s [|s' l]]; try reflexivity.
  cbn -[filter String.append save_row String.eqb]. unfold decline_mail.
  destruct (email novice =? "")%string; cbn -[filter String.append save_row]; [reflexivity|].
  destruct (smtp_delivers backend _); reflexivity.
Qed.

(** The system account is still found, under the same key, after the
    applicant's row has been saved. *)
Lemma system_account_after_save novice user w sys :
  In novice (authors w) -> id user = id novice ->
  get_by_id (GENERIC_SUPERUSER_ID cfg) w = (w, Return sys) ->
  exists s, filter (fun a => id a =? GENERIC_SUPERUSER_ID cfg) (save_row user (authors w)) = [s]
            /\ id s = GENERIC_SUPERUSER_ID cfg.
Proof.
  intros Hin Hid Hget. apply get_by_id_inv in Hget. destruct Hget as [_ Hf].
  assert (Hc : contains user (authors w) = true).
  { apply contains_spec. exists novice. split; [exact Hin|symmetry; exact Hid]. }
  exists (if id sys =? id user then user else sys).
  split; [apply get_by_id_after_save; assumption|].
  pose proof (filter_singleton_id _ _ _ Hf) as Hs.
  destruct (Z.eqb_spec (id sys) (id user)); congruence.
Qed.

Lemma save_row_present novice user w :
  In novice (authors w) -> id user = id novice ->
  save_row user (authors w) = map (fun a => if id a =? id novice then user else a) (authors w).
Proof.
  intros Hin Hid. rewrite save_row_stored.
  - rewrite Hid. reflexivity.
  - apply contains_spec. exists novice. split; [exact Hin|symmetry; exact Hid].
Qed.

(** C3.  Accepting a stored applicant, with the system account present and
    the mail transport delivering, returns normally; the applicant's row is
    stored with status accepted and novice flag cleared; one direct message
    from the system account and one audit record by the acting admin about
    the applicant are added; no entry is deleted.  One mail to the
    applicant's address is added when that address is not empty; when it is
    empty no mail is added. *)
Theorem accept_application_effects novice request w sys :
  In novice (authors w) ->
  get_by_id (GENERIC_SUPERUSER_ID cfg) w = (w, Return sys) ->
  smtp_delivers backend (accept_mail cfg novice) = true ->
  exists w' user,
    accept_application cfg backend novice request w = (w', Return true) /\
    application_status user = "AP" /\ is_novice user = false /\ id user = id novice /\
    In user (authors w') /\
    authors w' = map (fun a => if id a =? id novice then user else a) (authors w) /\
    (exists msg, messages w' = (messages w ++ [msg])%list /\
       sender msg = GENERIC_SUPERUSER_ID cfg /\ recipient msg = id novice /\
       body msg = application_accept_message cfg (username novice)) /\
    (email novice <> "" ->
     exists mail, outbox w' = (outbox w ++ [mail])%list /\
       recipient_list mail = [email novice] /\
       subject mail = "yazarlık başvurunuz kabul edildi" /\
       mail_body mail = application_accept_message cfg (username novice)) /\
    (email novice = "" -> outbox w' = outbox w) /\
    (exists rec, log_entries w' = (log_entries w ++ [rec])%list /\
       actor rec = id (request_user request) /\ object_id rec = id novice /\
       model_type rec = "Author") /\
    entries w' = entries w.
Proof.
  intros Hin Hsys Hsmtp.
  set (user := set_is_novice false (set_application_status "AP" novice)).
  destruct (system_account_after_save novice user w sys Hin eq_refl Hsys) as (s & Hs & Hid).
  assert (Hrows := save_row_present novice user w Hin eq_refl).
  assert (Huser : In user (map (fun a => if id a =? id novice then user else a) (authors w))).
  { apply in_map_iff. exists novice. rewrite Z.eqb_refl. split; auto. }
  rewrite accept_application_unfold. cbv zeta.
  cbn [authors record_effect set_log_entries set_authors].
  fold user. rewrite Hs, Hsmtp.
  destruct (String.eqb_spec (email novice) "") as [E|E];
    (eexists; exists user; split; [reflexivity|]);
    cbn -[String.append save_row user];
    (split; [reflexivity|]); (split; [reflexivity|]); (split; [reflexivity|]);
    (split; [rewrite Hrows; exact Huser|]); (split; [exact Hrows|]);
    (split; [eexists; split; [reflexivity|]; cbn; repeat split; auto|]).
  - split; [intros Hne; contradiction|]. split; [reflexivity|].
    split; [eexists; split; [reflexivity|]; cbn; repeat split; auto|reflexivity].
  - split; [intros _; eexists; split; [reflexivity|]; cbn; repeat split; auto|].
    split; [intros Hblank; contradiction|].
    split; [eexists; split; [reflexivity|]; cbn; repeat split; auto|reflexivity].
Qed.

(** C4.  Declining a stored applicant, with the system account present and
    the mail transport delivering, returns normally; every published entry
    of the applicant is removed in one bulk deletion and no other entry is;
    the applicant's row is stored with status on-hold and no application
    date; one direct message and one audit record are added.  One mail to
    the applicant's address is added when that address is not empty; when it
    is empty no mail is added. *)
Theorem decline_application_effects novice request w sys :
  In novice (authors w) ->
  get_by_id (GENERIC_SUPERUSER_ID cfg) w = (w, Return sys) ->
  smtp_delivers backend (decline_mail cfg novice) = true ->
  exists w' user,
    decline_application cfg backend novice request w = (w', Return true) /\
    application_status user = "OH" /\ application_date user = None /\ id user = id novice /\
    In user (authors w') /\
    authors w' = map (fun a => if id a =? id novice then user else a) (authors w) /\
    (forall e, In e (entries w') <->
       In e (entries w) /\ ~ (published e = true /\ author e = id novice)) /\
    entries w' = filter (fun e => negb (published e && (author e =? id novice))) (entries w) /\
    (exists rest, effects w' = (effects w ++ DeleteEntries (id novice) :: rest)%list /\
       forall k, ~ In (DeleteEntries k) rest) /\
    (exists msg, messages w' = (messages w ++ [msg])%list /\
       sender msg = GENERIC_SUPERUSER_ID cfg /\ recipient msg = id novice /\
       body msg = application_decline_message cfg (username novice)) /\
    (email novice <> "" ->
     exists mail, outbox w' = (outbox w ++ [mail])%list /\
       recipient_list mail = [email novice] /\
       subject mail = "yazarlık başvurunuz reddedildi" /\
       mail_body mail = application_decline_message cfg (username novice)) /\
    (email novice = "" -> outbox w' = outbox w) /\
    (exists rec, log_entries w' = (log_entries w ++ [rec])%list /\
       actor rec = id (request_user request) /\ object_id rec = id novice /\
       model_type rec = "Author").
Proof.
  intros Hin Hsys Hsmtp.
  set (user := set_application_date None (set_application_status "OH" novice)).
  destruct (system_account_after_save novice user w sys Hin eq_refl Hsys) as (s & Hs & Hid).
  assert (Hrows := save_row_present novice user w Hin eq_refl).
  assert (Huser : In user (map (fun a => if id a =? id novice then user else a) (authors w))).
  { apply in_map_iff. exists novice. rewrite Z.eqb_refl. split; auto. }
  assert (Hkept : forall e,
            In e (filter (fun e => negb (published e && (author e =? id novice))) (entries w)) <->
            In e (entries w) /\ ~ (published e = true /\ author e = id novice)).
  { intros e. rewrite filter_In, negb_true_iff, andb_false_iff, Z.eqb_neq.
    destruct (published e); intuition congruence. }
  rewrite decline_application_unfold. cbv zeta.
  cbn [authors record_effect set_log_entries set_authors set_entries].
  fold user. rewrite Hs, Hsmtp.
  destruct (String.eqb_spec (email novice) "") as [E|E];
    (eexists; exists user; split; [reflexivity|]);
    cbn -[String.append save_row user filter];
    (split; [reflexivity|]); (split; [reflexivity|]); (split; [reflexivity|]);
    (split; [rewrite Hrows; exact Huser|]); (split; [exact Hrows|]);
    (split; [exact Hkept|]); (split; [reflexivity|]);
    (split; [eexists; split;
               [rewrite <- !app_assoc; cbn [app]; reflexivity
               |intros k H; cbn in H; intuition discriminate]|]);
    (split; [eexists; split; [reflexivity|]; cbn; repeat split; auto|]).
  - split; [intros Hne; contradiction|]. split; [reflexivity|].
    eexists; split; [reflexivity|]; cbn; repeat split; auto.
  - split; [intros _; eexists; split; [reflexivity|]; cbn; repeat split; auto|].
    split; [intros Hblank; contradiction|].
    eexists; split; [reflexivity|]; cbn; repeat split; auto.
Qed.

(** The order in which [accept_application] makes its effectful calls. *)
Lemma accept_application_trace novice request w sys :
  In novice (authors w) ->
  get_by_id (GENERIC_SUPERUSER_ID cfg) w = (w, Return sys) ->
  smtp_delivers backend (accept_mail cfg novice) = true ->
  let user := set_is_novice false (set_application_status "AP" novice) in
  let info := username novice ++ " nickli kullanıcının yazarlık talebi kabul edildi" in
  effects (fst (accept_application cfg backend novice request w)) =
  (effects w ++
   [SaveAuthor user;
    LogAdmin (mkLogEntry (id (request_user request)) info "Author" (id novice));
    Compose (mkMessage (GENERIC_SUPERUSER_ID cfg) (id novice)
               (application_accept_message cfg (username novice)));
    SendMail (accept_mail cfg novice) false;
    Notify (mkNotification level_success info)])%list.
Proof.
  intros Hin Hsys Hsmtp. cbv zeta.
  destruct (system_account_after_save novice
              (set_is_novice false (set_application_status "AP" novice)) w sys Hin eq_refl Hsys)
    as (s & Hs & Hid).
  rewrite accept_application_unfold. cbv zeta.
  cbn [authors record_effect set_log_entries set_authors].
  rewrite Hs, Hsmtp.
  destruct (email novice =? "")%string; cbn -[String.append save_row];
    rewrite Hid, <- !app_assoc; reflexivity.
Qed.

(** C7.  The order of an accept's effectful calls: the row is saved, the
    audit record is written, the direct message is composed, the mail is
    sent, and the success notification is queued. *)
Theorem accept_application_order novice request w sys :
  In novice (authors w) ->
  get_by_id (GENERIC_SUPERUSER_ID cfg) w = (w, Return sys) ->
  smtp_delivers backend (accept_mail cfg novice) = true ->
  exists user rec msg mail note,
    effects (fst (accept_application cfg backend novice request w)) =
    (effects w ++ [SaveAuthor user; LogAdmin rec; Compose msg; SendMail mail false; Notify note])%list /\
    application_status user = "AP" /\ is_novice user = false /\ id user = id novice /\
    actor rec = id (request_user request) /\ object_id rec = id novice /\
    sender msg = GENERIC_SUPERUSER_ID cfg /\ recipient msg = id novice /\
    recipient_list mail = [email novice] /\
    level note = level_success.
Proof.
  intros Hin Hsys Hsmtp.
  do 5 eexists. split.
  - apply (accept_application_trace novice request w sys Hin Hsys Hsmtp).
  - cbn. repeat split; reflexivity.
Qed.

(** Whatever the outcome of an accept, the author table afterwards is the
    table before with the applicant's row saved. *)
Lemma accept_application_authors novice request w :
  authors (fst (accept_application cfg backend novice request w)) =
  save_row (set_is_novice false (set_application_status "AP" novice)) (authors w).
Proof.
  rewrite accept_application_unfold. cbv zeta.
  destruct (filter _ _) as [|s [|s' l]]; try reflexivity.
  destruct (email novice =? "")%string; [reflexivity|].
  destruct (smtp_delivers backend _); reflexivity.
Qed.

Lemma primary_key_unique (t : list Author) a b :
  NoDup (map id t) -> In a t -> In b t -> id a = id b -> a = b.
Proof.
  induction t as [|x t IH]; simpl; intros Hnd Ha Hb E; [contradiction|].
  inversion Hnd as [|? ? Hx Hnd']; subst.
  destruct Ha as [->|Ha], Hb as [->|Hb]; auto.
  - exfalso. apply Hx. rewrite E. apply in_map. exact Hb.
  - exfalso. apply Hx. rewrite <- E. apply in_map. exact Ha.
Qed.

(** C9.  With [id] a primary key, an accept leaves every row of the author
    table in place; each row keeps its id, username, email, application date
    and last activity; and every row other than the applicant's is left as
    it was.  This holds whether the accept returns or raises. *)
Theorem accept_application_frame novice request w :
  In novice (authors w) ->
  NoDup (map id (authors w)) ->
  let w' := fst (accept_application cfg backend novice request w) in
  List.length (authors w') = List.length (authors w) /\
  forall i a, nth_error (authors w) i = Some a ->
    exists a', nth_error (authors w') i = Some a' /\
      id a' = id a /\ username a' = username a /\ email a' = email a /\
      application_date a' = application_date a /\ last_activity a' = last_activity a /\
      (a <> novice -> a' = a) /\
      (a = novice -> application_status a' = "AP" /\ is_novice a' = false).
Proof.
  intros Hin Hnd. cbv zeta. rewrite accept_application_authors.
  rewrite (save_row_present novice (set_is_novice false (set_application_status "AP" novice))
             w Hin eq_refl).
  split; [apply length_map|].
  intros i a Hi. eexists. split; [apply nth_error_map_row; exact Hi|].
  assert (Ha : In a (authors w)) by (eapply nth_error_In; exact Hi).
  destruct (Z.eqb_spec (id a) (id novice)) as [E|E].
  - pose proof (primary_key_unique _ a novice Hnd Ha Hin E) as ->.
    cbn. do 5 (split; [reflexivity|]).
    split; [intros H; contradiction | intros _; split; reflexivity].
  - do 5 (split; [reflexivity|]).
    split; [reflexivity | intros ->; contradiction].
Qed.

(** C8.  Both decisions call [send_mail] with [fail_silently] off: when the
    mail has an address to go to and the transport does not deliver it, the
    decision raises instead of returning, the exception is the transport's
    own whenever the earlier steps succeed, no mail is recorded as sent, and
    [post] lets the exception through. *)
Theorem send_mail_failure_propagates novice request w :
  email novice <> "" ->
  (smtp_delivers backend (accept_mail cfg novice) = false ->
     (exists e, snd (accept_application cfg backend novice request w) = Raise e) /\
     (POST_operation request = Some "accept" ->
        exists e, snd (post cfg backend novice request w) = Raise e) /\
     (forall sys, In novice (authors w) ->
        get_by_id (GENERIC_SUPERUSER_ID cfg) w = (w, Return sys) ->
        snd (accept_application cfg backend novice request w) =
          Raise (smtp_error backend (accept_mail cfg novice)) /\
        outbox (fst (accept_application cfg backend novice request w)) = outbox w /\
        exists before,
          effects (fst (accept_application cfg backend novice request w)) =
          (before ++ [SendMail (accept_mail cfg novice) false])%list)) /\
  (smtp_delivers backend (decline_mail cfg novice) = false ->
     (exists e, snd (decline_application cfg backend novice request w) = Raise e) /\
     (POST_operation request = Some "decline" ->
        exists e, snd (post cfg backend novice request w) = Raise e) /\
     (forall sys, In novice (authors w) ->
        get_by_id (GENERIC_SUPERUSER_ID cfg) w = (w, Return sys) ->
        snd (decline_application cfg backend novice request w) =
          Raise (smtp_error backend (decline_mail cfg novice)) /\
        outbox (fst (decline_application cfg backend novice request w)) = outbox w /\
        exists before,
          effects (fst (decline_application cfg backend novice request w)) =
          (before ++ [SendMail (decline_mail cfg novice) false])%list)).
Proof.
  intros Haddr. apply String.eqb_neq in Haddr.
  split; intros Hdown.
  - assert (Hraise : exists e, snd (accept_application cfg backend novice request w) = Raise e).
    { rewrite accept_application_unfold. cbv zeta.
      destruct (filter _ _) as [|s [|s' l]]; [eexists; reflexivity| |eexists; reflexivity].
      rewrite Haddr, Hdown. eexists; reflexivity. }
    split; [exact Hraise|]. split.
    + intros Hop. destruct Hraise as [e He]. exists e.
      unfold post. rewrite Hop. cbn [field_in field_is existsb negb String.eqb Ascii.eqb Bool.eqb orb andb].
      apply bind_raises. exact He.
    + intros sys Hin Hsys.
      destruct (system_account_after_save novice
                  (set_is_novice false (set_application_status "AP" novice)) w sys Hin eq_refl Hsys)
        as (s & Hs & Hid).
      rewrite accept_application_unfold. cbv zeta.
      cbn [authors record_effect set_log_entries set_authors].
      rewrite Hs, Haddr, Hdown. cbn -[String.append save_row].
      repeat split; try reflexivity.
      eexists. reflexivity.
  - assert (Hraise : exists e, snd (decline_application cfg backend novice request w) = Raise e).
    { rewrite decline_application_unfold. cbv zeta.
      destruct (filter (fun a => id a =? _) _) as [|s [|s' l]];
        [eexists; reflexivity| |eexists; reflexivity].
      rewrite Haddr, Hdown. eexists; reflexivity. }
    split; [exact Hraise|]. split.
    + intros Hop. destruct Hraise as [e He]. exists e.
      unfold post. rewrite Hop. cbn [field_in field_is existsb negb String.eqb Ascii.eqb Bool.eqb orb andb].
      apply bind_raises. exact He.
    + intros sys Hin Hsys.
      destruct (system_account_after_save novice
                  (set_application_date None (set_application_status "OH" novice)) w sys Hin eq_refl Hsys)
        as (s & Hs & Hid).
      rewrite decline_application_unfold. cbv zeta.
      cbn [authors record_effect set_log_entries set_authors set_entries].
      rewrite Hs, Haddr, Hdown. cbn -[String.append save_row filter].
      repeat split; try reflexivity.
      eexists. reflexivity.
Qed.

End Transitions.

(** ** Selecting the applicant *)

Lemma contains_firstn_spec k novice l :
  contains novice (firstn k l) = true <-> ranked_within k novice l.
Proof.
  rewrite contains_spec. unfold ranked_within. split.
  - intros (b & Hb & E). apply In_nth_error in Hb. destruct Hb as [i Hi].
    exists i, b. rewrite nth_error_firstn in Hi.
    destruct (Nat.ltb_spec i k); [auto|discriminate].
  - intros (i & a & Hlt & Hi & E). exists a. split; [|exact E].
    apply nth_error_In with i. rewrite nth_error_firstn.
    destruct (Nat.ltb_spec i k); [exact Hi|lia].
Qed.

Lemma ranked_within_queued k novice l : ranked_within k novice l -> queued novice l.
Proof.
  intros (i & a & _ & Hi & E). exists a. split; [eapply nth_error_In; exact Hi|exact E].
Qed.

Lemma get_object_or_404_inv name w w' a :
  get_object_or_404 name w = (w', Return a) ->
  w' = w /\ In a (authors w) /\ username a = name.
Proof.
  unfold get_object_or_404, objects_get.
  destruct (filter _ (authors w)) as [|x [|y l]] eqn:Hf; intros H; inversion H.
  subst w' x. split; [reflexivity|].
  assert (Hin : In a (filter (fun a => (username a =? name)%string) (authors w)))
    by (rewrite Hf; left; reflexivity).
  apply filter_In in Hin. rewrite String.eqb_eq in Hin. tauto.
Qed.

Section Dispatch.

Variable cfg : Settings.
Variable backend : Backend.

(** The three ways [select_novice] ends once the user is found. *)
Lemma select_novice_cases request w novice :
  get_object_or_404 (kwargs_username request) w = (w, Return novice) ->
  select_novice cfg backend request w =
  if negb (contains novice (novice_list cfg backend None w)) then
    (rejected "kullanıcı çaylak onay listesinde değil." w, Return None)
  else if negb (contains novice (firstn 10 (novice_list cfg backend None w))) then
    (rejected "kullanıcı çaylak onay listesinin başında değil" w, Return None)
  else (w, Return (Some novice)).
Proof.
  intros Hget. unfold select_novice, bind at 1. rewrite Hget.
  unfold bind at 1, query. cbn [slice].
  destruct (contains novice (novice_list cfg backend None w)); cbn [negb]; [|reflexivity].
  destruct (contains novice (firstn 10 _)); reflexivity.
Qed.

Lemma select_novice_inv request w w' novice :
  select_novice cfg backend request w = (w', Return (Some novice)) ->
  w' = w /\
  get_object_or_404 (kwargs_username request) w = (w, Return novice) /\
  contains novice (firstn 10 (novice_list cfg backend None w)) = true.
Proof.
  intros H.
  destruct (get_object_or_404 (kwargs_username request) w) as [w1 [a|e]] eqn:Hget.
  - destruct (get_object_or_404_inv _ _ _ _ Hget) as (-> & _ & _).
    rewrite (select_novice_cases request w a Hget) in H.
    destruct (contains a (novice_list cfg backend None w)); cbn [negb] in H;
      [|inversion H].
    destruct (contains a (firstn 10 _)) eqn:Hten; cbn [negb] in H; inversion H; subst.
    auto.
  - unfold select_novice, bind at 1 in H. rewrite Hget in H. inversion H.
Qed.

Lemma dispatch_selected request w novice :
  select_novice cfg backend request w = (w, Return (Some novice)) ->
  dispatch cfg backend request w = View_dispatch cfg backend novice request w.
Proof. intros H. unfold dispatch, bind. rewrite H. reflexivity. Qed.

(** An applicant that passed the window check is a stored row, found under
    the requested username. *)
Lemma selected_is_stored request w w' novice :
  select_novice cfg backend request w = (w', Return (Some novice)) ->
  In novice (authors w) /\ username novice = kwargs_username request.
Proof.
  intros H. destruct (select_novice_inv request w w' novice H) as (_ & Hget & _).
  destruct (get_object_or_404_inv _ _ _ _ Hget) as (_ & Hin & Hname). auto.
Qed.

(** A POST for an applicant in the window with a valid operation runs the
    decision and then redirects; an exception of the decision is not
    caught. *)
Lemma dispatch_post_accept request w novice :
  method request = POST ->
  select_novice cfg backend request w = (w, Return (Some novice)) ->
  POST_operation request = Some "accept" ->
  dispatch cfg backend request w =
  match accept_application cfg backend novice request w with
  | (w', Return _) =>
      (w', Return (Redirect (if field_is (POST_submit_type request) "redirect_back"
                             then admin_novice_list
                             else admin_novice_lookup (POST_submit_type request))))
  | (w', Raise e) => (w', Raise e)
  end.
Proof.
  intros Hpost Hsel Hop. rewrite (dispatch_selected request w novice Hsel).
  unfold View_dispatch. rewrite Hpost. unfold post. rewrite Hop.
  cbn [field_in field_is existsb negb String.eqb Ascii.eqb Bool.eqb orb andb].
  unfold bind. destruct (accept_application cfg backend novice request w) as [w' [b|e]];
    [|reflexivity].
  destruct (POST_submit_type request) as [t|]; [|reflexivity].
  cbn [field_is]. destruct (String.eqb t "redirect_back"); reflexivity.
Qed.

Lemma dispatch_post_decline request w novice :
  method request = POST ->
  select_novice cfg backend request w = (w, Return (Some novice)) ->
  POST_operation request = Some "decline" ->
  dispatch cfg backend request w =
  match decline_application cfg backend novice request w with
  | (w', Return _) =>
      (w', Return (Redirect (if field_is (POST_submit_type request) "redirect_back"
                             then admin_novice_list
                             else admin_novice_lookup (POST_submit_type request))))
  | (w', Raise e) => (w', Raise e)
  end.
Proof.
  intros Hpost Hsel Hop. rewrite (dispatch_selected request w novice Hsel).
  unfold View_dispatch. rewrite Hpost. unfold post. rewrite Hop.
  cbn [field_in field_is existsb negb String.eqb Ascii.eqb Bool.eqb orb andb].
  unfold bind. destruct (decline_application cfg backend novice request w) as [w' [b|e]];
    [|reflexivity].
  destruct (POST_submit_type request) as [t|]; [|reflexivity].
  cbn [field_is]. destruct (String.eqb t "redirect_back"); reflexivity.
Qed.

Lemma rejected_frame msg w :
  flash (rejected msg w) = (flash w ++ [mkNotification level_error msg])%list /\
  authors (rejected msg w) = authors w /\ entries (rejected msg w) = entries w /\
  messages (rejected msg w) = messages w /\ log_entries (rejected msg w) = log_entries w /\
  outbox (rejected msg w) = outbox w.
Proof. repeat split; reflexivity. Qed.

(** C2.  The review view is entered only for an applicant who is in the
    unlimited queue and among its first ten, and it is entered for every
    such applicant.  When the requested user is not in the queue, or is in
    it but not among the first ten, the request queues one error
    notification, redirects to the queue overview, and leaves the author,
    entry, message, audit and mail tables as they were. *)
Theorem dispatch_top_ten_only request w :
  let queue := novice_list cfg backend None w in
  (forall w' novice,
     select_novice cfg backend request w = (w', Return (Some novice)) ->
     w' = w /\ queued novice queue /\ ranked_within 10 novice queue /\
     dispatch cfg backend request w = View_dispatch cfg backend novice request w) /\
  (forall novice,
     get_object_or_404 (kwargs_username request) w = (w, Return novice) ->
     ranked_within 10 novice queue ->
     dispatch cfg backend request w = View_dispatch cfg backend novice request w) /\
  (forall novice,
     get_object_or_404 (kwargs_username request) w = (w, Return novice) ->
     ~ queued novice queue \/ (queued novice queue /\ ~ ranked_within 10 novice queue) ->
     exists msg,
       dispatch cfg backend request w = (rejected msg w, Return (Redirect admin_novice_list)) /\
       flash (rejected msg w) = (flash w ++ [mkNotification level_error msg])%list /\
       authors (rejected msg w) = authors w /\ entries (rejected msg w) = entries w /\
       messages (rejected msg w) = messages w /\
       log_entries (rejected msg w) = log_entries w /\
       outbox (rejected msg w) = outbox w).
Proof.
  cbv zeta. split; [|split].
  - intros w' novice H.
    destruct (select_novice_inv request w w' novice H) as (-> & Hget & Hten).
    apply contains_firstn_spec in Hten.
    split; [reflexivity|]. split; [eapply ranked_within_queued; exact Hten|].
    split; [exact Hten|]. apply dispatch_selected. exact H.
  - intros novice Hget Hten. apply dispatch_selected.
    rewrite (select_novice_cases request w novice Hget).
    assert (Hq : contains novice (novice_list cfg backend None w) = true)
      by (apply contains_spec; eapply ranked_within_queued; exact Hten).
    apply contains_firstn_spec in Hten. rewrite Hq, Hten. reflexivity.
  - intros novice Hget Hout.
    pose proof (select_novice_cases request w novice Hget) as Hsel.
    destruct (contains novice (novice_list cfg backend None w)) eqn:Hq; cbn [negb] in Hsel.
    + destruct (contains novice (firstn 10 (novice_list cfg backend None w))) eqn:Hten;
        cbn [negb] in Hsel.
      * exfalso. apply contains_firstn_spec in Hten. apply contains_spec in Hq.
        destruct Hout as [Hout|[_ Hout]]; [apply Hout; exact Hq|apply Hout; exact Hten].
      * eexists. split; [|apply rejected_frame].
        unfold dispatch, bind. rewrite Hsel. reflexivity.
    + eexists. split; [|apply rejected_frame].
      unfold dispatch, bind. rewrite Hsel. reflexivity.
Qed.

(** C6.  A POST for an applicant in the reviewable window whose operation
    token is neither accept nor decline (or is missing) queues one error
    notification, redirects to the detail view of that same applicant, and
    leaves the author, entry, message, audit and mail tables as they
    were. *)
Theorem post_invalid_operation request w novice :
  method request = POST ->
  select_novice cfg backend request w = (w, Return (Some novice)) ->
  POST_operation request <> Some "accept" ->
  POST_operation request <> Some "decline" ->
  exists msg,
    dispatch cfg backend request w =
      (rejected msg w, Return (Redirect (admin_novice_lookup (Some (kwargs_username request))))) /\
    username novice = kwargs_username request /\ In novice (authors w) /\
    flash (rejected msg w) = (flash w ++ [mkNotification level_error msg])%list /\
    authors (rejected msg w) = authors w /\ entries (rejected msg w) = entries w /\
    messages (rejected msg w) = messages w /\
    log_entries (rejected msg w) = log_entries w /\
    outbox (rejected msg w) = outbox w.
Proof.
  intros Hpost Hsel Hacc Hdec.
  destruct (select_novice_inv request w w novice Hsel) as (_ & Hget & _).
  destruct (get_object_or_404_inv _ _ _ _ Hget) as (_ & Hin & Hname).
  assert (Hop : field_in (POST_operation request) ["accept"; "decline"] = false).
  { destruct (POST_operation request) as [op|]; [|reflexivity].
    cbn [field_in existsb]. rewrite orb_false_r. apply orb_false_iff.
    split; apply String.eqb_neq; congruence. }
  eexists. split; [|split; [exact Hname|split; [exact Hin|apply rejected_frame]]].
  rewrite (dispatch_selected request w novice Hsel).
  unfold View_dispatch. rewrite Hpost. unfold post. rewrite Hop. cbn [negb].
  rewrite Hname. reflexivity.
Qed.

End Dispatch.

(** ** Next applicant *)

Section NextApplicant.

Variable cfg : Settings.
Variable backend : Backend.

Lemma later_candidate_above d a :
  later_candidate cfg col_gt d a = true <-> later_above cfg d a.
Proof.
  unfold later_candidate, later_above, pending_novice, active_above, applied_after, col_gt.
  rewrite !andb_true_iff, String.eqb_eq. split.
  - intros [[[H1 H2] H3] H4].
    destruct (last_activity a) as [la|]; [|discriminate].
    destruct (application_date a) as [x|]; [|discriminate].
    apply Z.ltb_lt in H3, H4. eauto 10.
  - intros ([H1 H2] & (la & -> & H3) & (x & -> & H4)).
    rewrite !Z.ltb_lt. auto.
Qed.

Lemma later_candidate_below d a :
  later_candidate cfg col_lt d a = true <-> later_below cfg d a.
Proof.
  unfold later_candidate, later_below, pending_novice, active_below, applied_after,
    col_lt, col_gt.
  rewrite !andb_true_iff, String.eqb_eq. split.
  - intros [[[H1 H2] H3] H4].
    destruct (last_activity a) as [la|]; [|discriminate].
    destruct (application_date a) as [x|]; [|discriminate].
    apply Z.ltb_lt in H3, H4. eauto 10.
  - intros ([H1 H2] & (la & -> & H3) & (x & -> & H4)).
    rewrite !Z.ltb_lt. auto.
Qed.

(** What one search returns: a candidate with the earliest application date,
    or nothing when there is no candidate. *)
Lemma later_applicant_spec cmp d w :
  exists r,
    later_applicant cfg backend cmp (Some d) w = (w, Return r) /\
    match r with
    | Some a =>
        In a (authors w) /\ later_candidate cfg cmp d a = true /\
        forall b, In b (authors w) -> later_candidate cfg cmp d b = true ->
          null_leb (nulls_high backend) (application_date a) (application_date b) = true
    | None => forall b, In b (authors w) -> later_candidate cfg cmp d b = false
    end.
Proof.
  eexists. split; [reflexivity|].
  apply (hd_order_by_least
           (fun a b => null_leb (nulls_high backend) (application_date a) (application_date b))).
  - intros a b. apply null_leb_total.
  - intros a b c. apply null_leb_trans.
Qed.

Lemma candidate_dates cmp d a b :
  later_candidate cfg cmp d a = true -> later_candidate cfg cmp d b = true ->
  null_leb (nulls_high backend) (application_date a) (application_date b) = true ->
  exists x y, application_date a = Some x /\ application_date b = Some y /\ x <= y.
Proof.
  unfold later_candidate. rewrite !andb_true_iff. intros [_ Ha] [_ Hb].
  destruct (application_date a) as [x|]; [|discriminate].
  destruct (application_date b) as [y|]; [|discriminate].
  simpl. rewrite Z.leb_le. eauto.
Qed.

(** [next_novice] for an applicant with a last activity and an application
    date: the outcome of the first search when it applies and finds a row,
    otherwise the outcome of the second. *)
Lemma next_novice_run novice w la d :
  last_activity novice = Some la -> application_date novice = Some d ->
  exists r1 r2,
    later_applicant cfg backend col_gt (Some d) w = (w, Return r1) /\
    later_applicant cfg backend col_lt (Some d) w = (w, Return r2) /\
    next_novice cfg backend novice w =
      (w, Return (match (if time_threshold_24h cfg <=? la then r1 else None) with
                  | Some a => Some a
                  | None => r2
                  end)).
Proof.
  intros Hla Hd.
  destruct (later_applicant_spec col_gt d w) as (r1 & E1 & _).
  destruct (later_applicant_spec col_lt d w) as (r2 & E2 & _).
  exists r1, r2. split; [exact E1|]. split; [exact E2|].
  unfold next_novice. rewrite Hla, Hd. unfold bind.
  destruct (time_threshold_24h cfg <=? la).
  - rewrite E1. destruct r1; [reflexivity|exact E2].
  - unfold ret. exact E2.
Qed.

Lemma get_next_username_run novice w :
  get_next_username cfg backend novice w =
  match next_novice cfg backend novice w with
  | (w', Return found) => (w', Return (option_map username found))
  | (w', Raise e) => (w', Raise e)
  end.
Proof. reflexivity. Qed.

Lemma search_earliest cmp (P : Author -> Prop) d w a :
  (forall x, later_candidate cfg cmp d x = true <-> P x) ->
  In a (authors w) /\ later_candidate cfg cmp d a = true /\
  (forall b, In b (authors w) -> later_candidate cfg cmp d b = true ->
     null_leb (nulls_high backend) (application_date a) (application_date b) = true) ->
  earliest_of P (authors w) a.
Proof.
  intros HP (Hin & Hc & Hleast). split; [exact Hin|]. split; [apply HP; exact Hc|].
  intros b Hb Pb. apply HP in Pb.
  apply (candidate_dates cmp d a b Hc Pb). apply Hleast; assumption.
Qed.

Lemma search_none cmp (P : Author -> Prop) d w :
  (forall x, later_candidate cfg cmp d x = true <-> P x) ->
  (forall b, In b (authors w) -> later_candidate cfg cmp d b = false) ->
  ~ (exists a, In a (authors w) /\ P a).
Proof.
  intros HP Hnone (a & Hin & Pa). apply HP in Pa. rewrite (Hnone a Hin) in Pa. discriminate.
Qed.

Lemma later_above_eligible d a : later_above cfg d a -> eligible a = true.
Proof.
  intros ([H1 H2] & (la & Hla & _) & _). apply eligible_spec. rewrite Hla.
  repeat split; auto. discriminate.
Qed.

Lemma later_below_eligible d a : later_below cfg d a -> eligible a = true.
Proof.
  intros ([H1 H2] & (la & Hla & _) & _). apply eligible_spec. rewrite Hla.
  repeat split; auto. discriminate.
Qed.

(** No candidate of either search exists when the current applicant is the
    whole queue: a candidate would be queued, hence be the current
    applicant, and would have applied after itself. *)
Lemma alone_in_queue_no_candidate novice w d a :
  application_date novice = Some d ->
  novice_list cfg backend None w = [novice] ->
  In a (authors w) -> eligible a = true -> ~ applied_after d a.
Proof.
  intros Hd Hq Hin He (x & Hx & Hlt).
  assert (Ha : In a (novice_list cfg backend None w)) by (apply novice_list_In; auto).
  rewrite Hq in Ha. destruct Ha as [<-|[]]. rewrite Hd in Hx. injection Hx. lia.
Qed.

(** C5.  For a current applicant with a last activity and an application
    date, [get_next_username] returns normally and reads nothing but the
    author table.  If the current applicant's activity is at or above the
    threshold and some pending novice is active strictly above the threshold
    and applied strictly later, the result is the username of such a row
    with the earliest application date.  Otherwise, if some pending novice
    is active strictly below the threshold and applied strictly later, the
    result is the username of such a row with the earliest application date.
    Otherwise the result is none; in particular it is none when the queue
    consists of the current applicant alone. *)
Theorem get_next_username_spec novice w la d :
  last_activity novice = Some la -> application_date novice = Some d ->
  exists r,
    get_next_username cfg backend novice w = (w, Return r) /\
    (time_threshold_24h cfg <= la ->
     (exists a, In a (authors w) /\ later_above cfg d a) ->
     exists a, earliest_of (later_above cfg d) (authors w) a /\ r = Some (username a)) /\
    (la < time_threshold_24h cfg \/ ~ (exists a, In a (authors w) /\ later_above cfg d a) ->
     (exists a, In a (authors w) /\ later_below cfg d a) ->
     exists a, earliest_of (later_below cfg d) (authors w) a /\ r = Some (username a)) /\
    (la < time_threshold_24h cfg \/ ~ (exists a, In a (authors w) /\ later_above cfg d a) ->
     ~ (exists a, In a (authors w) /\ later_below cfg d a) ->
     r = None) /\
    (novice_list cfg backend None w = [novice] -> r = None).
Proof.
  intros Hla Hd.
  destruct (later_applicant_spec col_gt d w) as (r1 & E1 & S1).
  destruct (later_applicant_spec col_lt d w) as (r2 & E2 & S2).
  destruct (next_novice_run novice w la d Hla Hd) as (r1' & r2' & E1' & E2' & Hrun).
  rewrite E1 in E1'. rewrite E2 in E2'. inversion E1'. inversion E2'. subst r1' r2'.
  clear E1 E2 E1' E2'.
  eexists. split; [rewrite get_next_username_run, Hrun; reflexivity|].
  assert (A1 : forall a, r1 = Some a -> earliest_of (later_above cfg d) (authors w) a).
  { intros a ->. apply (search_earliest col_gt _ d w a (later_candidate_above d) S1). }
  assert (N1 : r1 = None -> ~ (exists a, In a (authors w) /\ later_above cfg d a)).
  { intros ->. apply (search_none col_gt _ d w (later_candidate_above d) S1). }
  assert (A2 : forall a, r2 = Some a -> earliest_of (later_below cfg d) (authors w) a).
  { intros a ->. apply (search_earliest col_lt _ d w a (later_candidate_below d) S2). }
  assert (N2 : r2 = None -> ~ (exists a, In a (authors w) /\ later_below cfg d a)).
  { intros ->. apply (search_none col_lt _ d w (later_candidate_below d) S2). }
  clear S1 S2 Hrun.
  split; [|split; [|split]].
  - intros Hle Hex. apply Z.leb_le in Hle. rewrite Hle.
    destruct r1 as [a1|]; [|exfalso; apply (N1 eq_refl); exact Hex].
    exists a1. split; [apply A1; reflexivity|reflexivity].
  - intros Hfall Hex.
    assert (Hpick : (if time_threshold_24h cfg <=? la then r1 else None) = None).
    { destruct (Z.leb_spec (time_threshold_24h cfg) la) as [Hle|Hlt]; [|reflexivity].
      destruct r1 as [a1|]; [|reflexivity]. exfalso.
      destruct Hfall as [Hlt|Hno]; [lia|]. apply Hno. exists a1.
      destruct (A1 a1 eq_refl) as (Hin & Hp & _). auto. }
    rewrite Hpick.
    destruct r2 as [a2|]; [|exfalso; apply (N2 eq_refl); exact Hex].
    exists a2. split; [apply A2; reflexivity|reflexivity].
  - intros Hfall Hno2.
    assert (Hpick : (if time_threshold_24h cfg <=? la then r1 else None) = None).
    { destruct (Z.leb_spec (time_threshold_24h cfg) la) as [Hle|Hlt]; [|reflexivity].
      destruct r1 as [a1|]; [|reflexivity]. exfalso.
      destruct Hfall as [Hlt|Hno]; [lia|]. apply Hno. exists a1.
      destruct (A1 a1 eq_refl) as (Hin & Hp & _). auto. }
    rewrite Hpick.
    destruct r2 as [a2|]; [|reflexivity]. exfalso. apply Hno2. exists a2.
    destruct (A2 a2 eq_refl) as (Hin & Hp & _). auto.
  - intros Hq.
    assert (Hr1 : r1 = None).
    { destruct r1 as [a1|]; [|reflexivity]. exfalso.
      destruct (A1 a1 eq_refl) as (Hin & Hp & _).
      apply (alone_in_queue_no_candidate novice w d a1 Hd Hq Hin
               (later_above_eligible d a1 Hp)).
      apply Hp. }
    assert (Hr2 : r2 = None).
    { destruct r2 as [a2|]; [|reflexivity]. exfalso.
      destruct (A2 a2 eq_refl) as (Hin & Hp & _).
      apply (alone_in_queue_no_candidate novice w d a2 Hd Hq Hin
               (later_below_eligible d a2 Hp)).
      apply Hp. }
    rewrite Hr1, Hr2. destruct (time_threshold_24h cfg <=? la); reflexivity.
Qed.

Lemma next_novice_inv novice w w' a :
  next_novice cfg backend novice w = (w', Return (Some a)) ->
  In a (authors w) /\
  exists d, application_date novice = Some d /\
    (later_above cfg d a \/ later_below cfg d a).
Proof.
  intros H.
  destruct (last_activity novice) as [la|] eqn:Hla;
    [|unfold next_novice in H; rewrite Hla in H; discriminate].
  destruct (application_date novice) as [d|] eqn:Hd.
  - destruct (later_applicant_spec col_gt d w) as (r1 & E1 & S1).
    destruct (later_applicant_spec col_lt d w) as (r2 & E2 & S2).
    destruct (next_novice_run novice w la d Hla Hd) as (r1' & r2' & E1' & E2' & Hrun).
    rewrite E1 in E1'. rewrite E2 in E2'. inversion E1'. inversion E2'. subst r1' r2'.
    rewrite Hrun in H. inversion H as [[Hw Hr]]. clear H. subst w'.
    assert (Hcase : r1 = Some a \/ r2 = Some a).
    { destruct (time_threshold_24h cfg <=? la); [destruct r1 as [a1|]|];
        [left; exact Hr | right; exact Hr | right; exact Hr]. }
    destruct Hcase as [->| ->].
    + destruct S1 as (Hin & Hc & _). split; [exact Hin|]. exists d. split; [reflexivity|].
      left. apply later_candidate_above. exact Hc.
    + destruct S2 as (Hin & Hc & _). split; [exact Hin|]. exists d. split; [reflexivity|].
      right. apply later_candidate_below. exact Hc.
  - exfalso. unfold next_novice in H. rewrite Hla, Hd in H. unfold bind in H.
    destruct (time_threshold_24h cfg <=? la); discriminate.
Qed.

Lemma threshold_tests (t : Z) :
  (t <=? t) = true /\ (t <? t) = false /\ (t <=? t - 1) = false /\
  (t - 1 <=? t) = true /\ (t - 1 <? t) = true /\ (t <? t - 1) = false.
Proof.
  rewrite !Z.leb_le, !Z.ltb_lt, !Z.leb_gt, !Z.ltb_ge. lia.
Qed.

(** C10.  Whatever row [get_next_username] names is a row whose last
    activity differs from the threshold and whose application date is
    strictly later than the current applicant's.  So a queued applicant
    whose last activity equals the threshold, or who is below the threshold
    and did not apply strictly later, is never named; and there are states
    whose queue holds such an applicant right after the current one in which
    the result is none. *)
Theorem next_applicant_skips_queued novice w :
  (forall w' a, next_novice cfg backend novice w = (w', Return (Some a)) ->
     In a (authors w) /\ last_activity a <> Some (time_threshold_24h cfg) /\
     exists d, application_date novice = Some d /\ applied_after d a) /\
  (forall w' u, get_next_username cfg backend novice w = (w', Return (Some u)) ->
     exists a, username a = u /\
       In a (authors w) /\ last_activity a <> Some (time_threshold_24h cfg) /\
       exists d, application_date novice = Some d /\ applied_after d a) /\
  (exists w0 current other d,
     novice_list cfg backend None w0 = [current; other] /\
     active_below cfg other /\
     application_date current = Some d /\ ~ applied_after d other /\
     get_next_username cfg backend current w0 = (w0, Return None)) /\
  (exists w0 current other d,
     novice_list cfg backend None w0 = [current; other] /\
     last_activity other = Some (time_threshold_24h cfg) /\
     application_date current = Some d /\ applied_after d other /\
     get_next_username cfg backend current w0 = (w0, Return None)).
Proof.
  assert (Hinv : forall w' a, next_novice cfg backend novice w = (w', Return (Some a)) ->
     In a (authors w) /\ last_activity a <> Some (time_threshold_24h cfg) /\
     exists d, application_date novice = Some d /\ applied_after d a).
  { intros w' a H. destruct (next_novice_inv novice w w' a H) as (Hin & d & Hd & Hc).
    split; [exact Hin|]. split.
    - destruct Hc as [(_ & (la & Hla & Hlt) & _)|(_ & (la & Hla & Hlt) & _)];
        rewrite Hla; intros E; injection E; lia.
    - exists d. split; [exact Hd|]. destruct Hc as [(_ & _ & Hc)|(_ & _ & Hc)]; exact Hc. }
  split; [exact Hinv|]. split.
  { intros w' u H. rewrite get_next_username_run in H.
    destruct (next_novice cfg backend novice w) as [w1 [[a|]|e]] eqn:Hn;
      try discriminate.
    injection H as _ Hu. exists a. split; [exact Hu|]. apply (Hinv w1 a eq_refl). }
  destruct (threshold_tests (time_threshold_24h cfg)) as (T1 & T2 & T3 & T4 & T5 & T6).
  split.
  - exists (mkWorld [mkAuthor 1 "current" "" true "PN" (Some 2) (Some (time_threshold_24h cfg));
                     mkAuthor 2 "other" "" true "PN" (Some 1) (Some (time_threshold_24h cfg - 1))]
                    [] [] [] [] [] []).
    eexists. eexists. exists 2.
    split; [|split; [|split; [|split]]].
    + unfold novice_list, eligible, queue_leb, activity, col_gte, col_lte.
      repeat (cbn -[Z.leb Z.ltb Z.sub]; rewrite ?T1, ?T2, ?T3, ?T4, ?T5, ?T6).
      reflexivity.
    + exists (time_threshold_24h cfg - 1). split; [reflexivity|lia].
    + reflexivity.
    + intros (x & Hx & Hlt). cbn in Hx. injection Hx. lia.
    + unfold get_next_username, next_novice, later_applicant, later_candidate, bind, query, ret,
        col_gt, col_lt.
      repeat (cbn -[Z.leb Z.ltb Z.sub]; rewrite ?T1, ?T2, ?T3, ?T4, ?T5, ?T6).
      reflexivity.
  - exists (mkWorld [mkAuthor 1 "current" "" true "PN" (Some 2) (Some (time_threshold_24h cfg));
                     mkAuthor 2 "other" "" true "PN" (Some 3) (Some (time_threshold_24h cfg))]
                    [] [] [] [] [] []).
    eexists. eexists. exists 2.
    split; [|split; [|split; [|split]]].
    + unfold novice_list, eligible, queue_leb, activity, col_gte, col_lte.
      repeat (cbn -[Z.leb Z.ltb Z.sub]; rewrite ?T1, ?T2, ?T3, ?T4, ?T5, ?T6).
      reflexivity.
    + reflexivity.
    + reflexivity.
    + exists 3. split; [reflexivity|lia].
    + unfold get_next_username, next_novice, later_applicant, later_candidate, bind, query, ret,
        col_gt, col_lt.
      repeat (cbn -[Z.leb Z.ltb Z.sub]; rewrite ?T1, ?T2, ?T3, ?T4, ?T5, ?T6).
      reflexivity.
Qed.

End NextApplicant.

(** ** The sample data, run through the theorems *)

Lemma novice_list_unlimited_witness :
  novice_list Sample.cfg Sample.backend None
    (mkWorld [Sample.carol; Sample.bob; Sample.alice] [] [] [] [] [] []) =
  [Sample.alice; Sample.bob; Sample.carol].
Proof.
  refine (proj2 (proj2 (proj2 (proj2
    (novice_list_unlimited Sample.cfg Sample.backend
       (mkWorld [Sample.carol; Sample.bob; Sample.alice] [] [] [] [] [] [])))))
    Sample.alice Sample.bob Sample.carol 100 150 50 1 2 _ _ _ _ _ _ _ _ _ _ _ _ _ _);
    try reflexivity; try (vm_compute; congruence).
  simpl. apply Permutation_trans with [Sample.bob; Sample.carol; Sample.alice].
  - apply perm_swap.
  - apply Permutation_trans with [Sample.bob; Sample.alice; Sample.carol].
    + apply perm_skip, perm_swap.
    + apply perm_swap.
Defined.

Lemma dispatch_top_ten_only_witness :
  get_object_or_404 "n11" Sample.crowd = (Sample.crowd, Return (Sample.applicant 11 "n11")) /\
  exists msg,
    dispatch Sample.cfg Sample.backend Sample.open_n11 Sample.crowd =
    (rejected msg Sample.crowd, Return (Redirect admin_novice_list)).
Proof.
  split; [reflexivity|].
  destruct (proj2 (proj2 (dispatch_top_ten_only Sample.cfg Sample.backend
                            Sample.open_n11 Sample.crowd))
              (Sample.applicant 11 "n11") eq_refl) as (msg & H & _).
  - right. split.
    + apply contains_spec. vm_compute. reflexivity.
    + intros H. apply contains_firstn_spec in H. vm_compute in H. discriminate.
  - exists msg. exact H.
Defined.

Lemma accept_application_effects_witness :
  In Sample.alice (authors Sample.world) /\
  get_by_id (GENERIC_SUPERUSER_ID Sample.cfg) Sample.world = (Sample.world, Return Sample.root) /\
  exists w',
    accept_application Sample.cfg Sample.backend Sample.alice Sample.accept_alice Sample.world =
    (w', Return true) /\
    entries w' = entries Sample.world.
Proof.
  assert (Hin : In Sample.alice (authors Sample.world)) by (simpl; auto).
  split; [exact Hin|]. split; [reflexivity|].
  destruct (accept_application_effects Sample.cfg Sample.backend Sample.alice
              Sample.accept_alice Sample.world Sample.root Hin eq_refl eq_refl)
    as (w' & user & H & _ & _ & _ & _ & _ & _ & _ & _ & _ & He).
  exists w'. split; [exact H|exact He].
Defined.

Lemma decline_application_effects_witness :
  In Sample.alice (authors Sample.world) /\
  get_by_id (GENERIC_SUPERUSER_ID Sample.cfg) Sample.world = (Sample.world, Return Sample.root) /\
  exists w',
    decline_application Sample.cfg Sample.backend Sample.alice Sample.decline_alice Sample.world =
    (w', Return true) /\
    entries w' = [mkEntry 2 2 false; mkEntry 3 3 true].
Proof.
  assert (Hin : In Sample.alice (authors Sample.world)) by (simpl; auto).
  split; [exact Hin|]. split; [reflexivity|].
  destruct (decline_application_effects Sample.cfg Sample.backend Sample.alice
              Sample.decline_alice Sample.world Sample.root Hin eq_refl eq_refl)
    as (w' & user & H & _ & _ & _ & _ & _ & _ & He & _).
  exists w'. split; [exact H|]. rewrite He. reflexivity.
Defined.

(** C3.  An applicant without an email address is accepted, and the accept
    returns, without any mail being added: the outbox is as before, not the
    outbox before plus one mail. *)
Lemma accept_blank_address_no_mail :
  In Sample.dora (novice_list Sample.cfg Sample.backend (Some 10%nat) Sample.office) /\
  snd (accept_application Sample.cfg Sample.backend Sample.dora Sample.accept_dora
         Sample.office) = Return true /\
  ~ returned_with_one_mail Sample.office
      (accept_application Sample.cfg Sample.backend Sample.dora Sample.accept_dora
         Sample.office).
Proof.
  split; [right; left; reflexivity|]. split; [reflexivity|].
  intros (mail & _ & H). vm_compute in H. discriminate.
Qed.

(** C4.  An applicant without an email address is declined, and the decline
    returns, without any mail being added. *)
Lemma decline_blank_address_no_mail :
  In Sample.dora (novice_list Sample.cfg Sample.backend (Some 10%nat) Sample.office) /\
  snd (decline_application Sample.cfg Sample.backend Sample.dora Sample.decline_dora
         Sample.office) = Return true /\
  ~ returned_with_one_mail Sample.office
      (decline_application Sample.cfg Sample.backend Sample.dora Sample.decline_dora
         Sample.office).
Proof.
  split; [right; left; reflexivity|]. split; [reflexivity|].
  intros (mail & _ & H). vm_compute in H. discriminate.
Qed.

Lemma get_next_username_spec_witness :
  last_activity Sample.alice = Some 100 /\ application_date Sample.alice = Some 1 /\
  exists r,
    get_next_username Sample.cfg Sample.backend Sample.alice Sample.world =
    (Sample.world, Return r) /\
    exists a, earliest_of (later_above Sample.cfg 1) (authors Sample.world) a /\
              r = Some (username a).
Proof.
  split; [reflexivity|]. split; [reflexivity|].
  destruct (get_next_username_spec Sample.cfg Sample.backend Sample.alice Sample.world
              100 1 eq_refl eq_refl) as (r & H & Habove & _).
  exists r. split; [exact H|]. apply Habove.
  - vm_compute. discriminate.
  - exists Sample.bob. split; [simpl; auto|].
    apply later_candidate_above. reflexivity.
Defined.

Lemma post_invalid_operation_witness :
  method Sample.delete_alice = POST /\
  select_novice Sample.cfg Sample.backend Sample.delete_alice Sample.world =
    (Sample.world, Return (Some Sample.alice)) /\
  exists msg,
    dispatch Sample.cfg Sample.backend Sample.delete_alice Sample.world =
    (rejected msg Sample.world, Return (Redirect (admin_novice_lookup (Some "alice")))).
Proof.
  split; [reflexivity|]. split; [reflexivity|].
  destruct (post_invalid_operation Sample.cfg Sample.backend Sample.delete_alice Sample.world
              Sample.alice eq_refl eq_refl) as (msg & H & _).
  - simpl. discriminate.
  - simpl. discriminate.
  - exists msg. exact H.
Defined.

Lemma accept_application_order_witness :
  In Sample.alice (authors Sample.world) /\
  exists user rec msg mail note,
    effects (fst (accept_application Sample.cfg Sample.backend Sample.alice
                    Sample.accept_alice Sample.world)) =
    [SaveAuthor user; LogAdmin rec; Compose msg; SendMail mail false; Notify note].
Proof.
  assert (Hin : In Sample.alice (authors Sample.world)) by (simpl; auto).
  split; [exact Hin|].
  destruct (accept_application_order Sample.cfg Sample.backend Sample.alice
              Sample.accept_alice Sample.world Sample.root Hin eq_refl eq_refl)
    as (user & rec & msg & mail & note & H & _).
  exists user, rec, msg, mail, note. exact H.
Defined.

(** C7.  The audit record is not written last: on the sample data it is
    written second, before the direct message and the mail, so the effects
    are not in the order save, message, mail, audit record. *)
Lemma accept_order_as_listed_fails :
  ~ accept_order_as_listed
      (effects (fst (accept_application Sample.cfg Sample.backend Sample.alice
                       Sample.accept_alice Sample.world))).
Proof.
  intros (user & msg & mail & silently & rec & H).
  vm_compute in H. discriminate.
Qed.

Lemma send_mail_failure_propagates_witness :
  email Sample.alice <> "" /\
  smtp_delivers Sample.backend_down (accept_mail Sample.cfg Sample.alice) = false /\
  snd (accept_application Sample.cfg Sample.backend_down Sample.alice
         Sample.accept_alice Sample.world) = Raise ConnectionRefusedError /\
  exists e, snd (post Sample.cfg Sample.backend_down Sample.alice
                   Sample.accept_alice Sample.world) = Raise e.
Proof.
  assert (Haddr : email Sample.alice <> "") by discriminate.
  split; [exact Haddr|]. split; [reflexivity|].
  destruct (proj1 (send_mail_failure_propagates Sample.cfg Sample.backend_down Sample.alice
                     Sample.accept_alice Sample.world Haddr) eq_refl) as (_ & Hpost & Hmail).
  split.
  - apply (Hmail Sample.root); [simpl; auto|reflexivity].
  - apply Hpost. reflexivity.
Defined.

Lemma accept_application_frame_witness :
  In Sample.alice (authors Sample.world) /\
  NoDup (map id (authors Sample.world)) /\
  nth_error
    (authors (fst (accept_application Sample.cfg Sample.backend Sample.alice
                     Sample.accept_alice Sample.world))) 2 = Some Sample.bob.
Proof.
  assert (Hin : In Sample.alice (authors Sample.world)) by (simpl; auto).
  assert (Hnd : NoDup (map id (authors Sample.world))).
  { simpl. repeat constructor; simpl; intuition discriminate. }
  split; [exact Hin|]. split; [exact Hnd|].
  destruct (proj2 (accept_application_frame Sample.cfg Sample.backend Sample.alice
                     Sample.accept_alice Sample.world Hin Hnd) 2%nat Sample.bob eq_refl)
    as (a' & Hnth & _ & _ & _ & _ & _ & Hsame & _).
  rewrite Hnth. f_equal. apply Hsame. discriminate.
Defined.

Lemma next_applicant_skips_queued_witness :
  next_novice Sample.cfg Sample.backend Sample.alice Sample.world =
    (Sample.world, Return (Some Sample.bob)) /\
  last_activity Sample.bob <> Some (time_threshold_24h Sample.cfg).
Proof.
  split; [reflexivity|].
  apply (proj1 (next_applicant_skips_queued Sample.cfg Sample.backend Sample.alice Sample.world)
           Sample.world Sample.bob eq_refl).
Defined.

(** * Further properties of the views *)

(** ** Sorting and selections *)

Section OrderByFilter.

Context {A : Type}.
Variable leb : A -> A -> bool.
Hypothesis leb_total : forall a b, leb a b = true \/ leb b a = true.
Hypothesis leb_trans : forall a b c, leb a b = true -> leb b c = true -> leb a c = true.

Lemma insert_by_least x l :
  (forall z, In z l -> leb x z = true) -> insert_by leb x l = x :: l.
Proof.
  destruct l as [|y l]; simpl; intros H; [reflexivity|].
  rewrite (H y (or_introl eq_refl)). reflexivity.
Qed.

Lemma insert_by_filter (p : A -> bool) x l :
  StronglySorted (fun a b => leb a b = true) l ->
  filter p (insert_by leb x l) =
  if p x then insert_by leb x (filter p l) else filter p l.
Proof.
  induction 1 as [|y l Hs IH Hy].
  - simpl. destruct (p x); reflexivity.
  - cbn [insert_by]. destruct (leb x y) eqn:E.
    + cbn [filter]. destruct (p x); [|reflexivity].
      symmetry. apply insert_by_least.
      intros z Hz. change (In z (filter p (y :: l))) in Hz.
      apply filter_In in Hz. destruct Hz as [[<-|Hz] _]; [exact E|].
      rewrite Forall_forall in Hy. eapply leb_trans; [exact E|apply Hy; exact Hz].
    + cbn [filter]. rewrite IH. destruct (p y), (p x); try reflexivity.
      cbn [insert_by]. rewrite E. reflexivity.
Qed.

(** Sorting a selection is selecting from the sorted list. *)
Lemma order_by_filter (p : A -> bool) l :
  order_by leb (filter p l) = filter p (order_by leb l).
Proof.
  induction l as [|x l IH]; [reflexivity|].
  cbn [order_by filter].
  rewrite insert_by_filter by (apply order_by_sorted; assumption).
  destruct (p x); [cbn [order_by]; rewrite IH; reflexivity|exact IH].
Qed.

End OrderByFilter.

Lemma StronglySorted_app_inv {A} (R : A -> A -> Prop) l1 l2 :
  StronglySorted R (l1 ++ l2) ->
  forall a b, In a l1 -> In b l2 -> R a b.
Proof.
  induction l1 as [|x l1 IH]; simpl; intros Hs a b Ha Hb; [contradiction|].
  inversion Hs as [|? ? Hs' Hx]; subst.
  destruct Ha as [<-|Ha].
  - rewrite Forall_forall in Hx. apply Hx. apply in_or_app. right. exact Hb.
  - apply IH; assumption.
Qed.

Lemma firstn_incl {A} n (l : list A) a : In a (firstn n l) -> In a l.
Proof.
  intros H. rewrite <- (firstn_skipn n l). apply in_or_app. left. exact H.
Qed.

Lemma StronglySorted_stands_before {A} (R : A -> A -> Prop) l x y :
  StronglySorted R l -> In x l -> In y l -> x <> y -> ~ R y x ->
  stands_before x y l.
Proof.
  induction 1 as [|z l Hs IH Hz]; intros Hx Hy Hne Hr; [contradiction|].
  destruct Hx as [->|Hx].
  - destruct Hy as [->|Hy]; [contradiction|].
    apply in_split in Hy. destruct Hy as (l2 & l3 & ->).
    exists [], l2, l3. reflexivity.
  - destruct Hy as [->|Hy].
    + exfalso. apply Hr. rewrite Forall_forall in Hz. apply Hz. exact Hx.
    + destruct (IH Hx Hy Hne Hr) as (l1 & l2 & l3 & ->).
      exists (z :: l1), l2, l3. reflexivity.
Qed.

(** ** The queue, limited and after a decision *)

Lemma contains_without novice l : contains novice (without (id novice) l) = false.
Proof.
  destruct (contains novice (without (id novice) l)) eqn:E; [|reflexivity].
  apply contains_spec in E. destruct E as (b & Hb & Hid).
  apply filter_In in Hb. destruct Hb as [_ Hb].
  rewrite Hid, Z.eqb_refl in Hb. discriminate.
Qed.

Lemma contains_false a l : contains a l = false -> forall b, In b l -> id b <> id a.
Proof.
  intros H b Hb E. assert (Hc : contains a l = true) by (apply contains_spec; eauto).
  congruence.
Qed.

Section QueueAfter.

Variable cfg : Settings.
Variable backend : Backend.

(** Saving a row that does not pass the queue filter takes its primary key
    out of the selection and leaves the other selected rows in place. *)
Lemma filter_eligible_save u t :
  eligible u = false ->
  filter eligible (save_row u t) = without (id u) (filter eligible t).
Proof.
  intros Hu. unfold save_row, without.
  destruct (contains u t) eqn:Hc.
  - clear Hc. induction t as [|a t IH]; [reflexivity|].
    cbn [map filter]. destruct (Z.eqb_spec (id a) (id u)) as [E|E].
    + rewrite Hu, IH. destruct (eligible a); [|reflexivity].
      cbn [filter]. rewrite E, Z.eqb_refl. reflexivity.
    + rewrite IH. destruct (eligible a); [|reflexivity].
      cbn [filter]. destruct (Z.eqb_spec (id a) (id u)); [contradiction|reflexivity].
  - rewrite filter_app. cbn [filter]. rewrite Hu, app_nil_r.
    pose proof (contains_false u t Hc) as Hne. clear Hc.
    induction t as [|a t IH]; [reflexivity|].
    cbn [filter]. destruct (eligible a).
    + cbn [filter]. destruct (Z.eqb_spec (id a) (id u)) as [E|E].
      * exfalso. apply (Hne a); [left; reflexivity|exact E].
      * cbn [negb]. f_equal. apply IH. intros b Hb. apply Hne. right. exact Hb.
    + apply IH. intros b Hb. apply Hne. right. exact Hb.
Qed.

Lemma queue_after_save u w w' :
  eligible u = false ->
  authors w' = save_row u (authors w) ->
  novice_list cfg backend None w' = without (id u) (novice_list cfg backend None w).
Proof.
  intros Hu Hw. unfold novice_list. cbn [slice]. rewrite Hw, filter_eligible_save by exact Hu.
  unfold without. apply order_by_filter.
  - apply queue_leb_total.
  - apply queue_leb_trans.
Qed.

Lemma decline_application_authors novice request w :
  authors (fst (decline_application cfg backend novice request w)) =
  save_row (set_application_date None (set_application_status "OH" novice)) (authors w).
Proof.
  rewrite decline_application_unfold. cbv zeta.
  destruct (filter (fun a => id a =? _) _) as [|s [|s' l]]; try reflexivity.
  destruct (email novice =? "")%string; [reflexivity|].
  destruct (smtp_delivers backend _); reflexivity.
Qed.

(** X1.  [novice_list(limit)] is the first [limit] rows of the unlimited
    queue: as many as asked for or all there are, each ranking before every
    row left out; with a limit no smaller than the queue it is the whole
    queue. *)
Theorem novice_list_limit (n : nat) (w : World) :
  let queue := novice_list cfg backend None w in
  let top := novice_list cfg backend (Some n) w in
  queue = (top ++ skipn n queue)%list /\
  List.length top = Nat.min n (List.length (filter eligible (authors w))) /\
  (forall a b, In a top -> In b (skipn n queue) -> ranks_before cfg backend a b) /\
  ((List.length (filter eligible (authors w)) <= n)%nat -> top = queue).
Proof.
  cbv zeta.
  assert (Htop : novice_list cfg backend (Some n) w = firstn n (novice_list cfg backend None w))
    by reflexivity.
  assert (Hlen : List.length (novice_list cfg backend None w) =
                 List.length (filter eligible (authors w)))
    by (apply Permutation_length, novice_list_perm).
  rewrite Htop. split; [symmetry; apply firstn_skipn|].
  split; [rewrite length_firstn, Hlen; reflexivity|].
  split.
  - apply StronglySorted_app_inv. rewrite firstn_skipn. apply novice_list_sorted.
  - intros Hle. apply firstn_all2. rewrite Hlen. exact Hle.
Qed.

(** X2.  The overview page changes nothing in the store; it lists the first
    ten rows of the queue, every one of them a pending novice with a last
    activity, and reports as [novice_count] the number of all such rows, so
    the list is shorter than ten only when it shows every pending
    application. *)
Theorem novice_list_view (w : World) :
  exists context,
    NoviceList.get cfg backend w =
      (w, Return (RenderList "dictionary/admin/novices.html" context)) /\
    object_list context = firstn 10 (novice_list cfg backend None w) /\
    novice_count context = List.length (filter eligible (authors w)) /\
    List.length (object_list context) = Nat.min 10 (novice_count context) /\
    (forall a, In a (object_list context) ->
       In a (authors w) /\ is_novice a = true /\ application_status a = "PN" /\
       last_activity a <> None).
Proof.
  eexists. split; [reflexivity|]. cbn [object_list novice_count].
  assert (Hlen : List.length (novice_list cfg backend None w) =
                 List.length (filter eligible (authors w)))
    by (apply Permutation_length, novice_list_perm).
  split; [reflexivity|]. split; [exact Hlen|].
  split; [change (novice_list cfg backend (Some 10%nat) w)
            with (firstn 10 (novice_list cfg backend None w));
          rewrite length_firstn; reflexivity|].
  intros a Ha.
  change (novice_list cfg backend (Some 10%nat) w)
    with (firstn 10 (novice_list cfg backend None w)) in Ha.
  apply firstn_incl in Ha. apply novice_list_In in Ha.
  rewrite eligible_spec in Ha. tauto.
Qed.

(** X3.  Whether it returns or raises, a decision takes the applicant out of
    the queue and leaves the other applicants in it, in the same order. *)
Theorem decision_leaves_queue novice request w :
  let accepted := fst (accept_application cfg backend novice request w) in
  let declined := fst (decline_application cfg backend novice request w) in
  novice_list cfg backend None accepted = without (id novice) (novice_list cfg backend None w) /\
  novice_list cfg backend None declined = without (id novice) (novice_list cfg backend None w) /\
  contains novice (novice_list cfg backend None accepted) = false /\
  contains novice (novice_list cfg backend None declined) = false.
Proof.
  cbv zeta.
  assert (Ha : novice_list cfg backend None
                 (fst (accept_application cfg backend novice request w)) =
               without (id novice) (novice_list cfg backend None w)).
  { apply (queue_after_save (set_is_novice false (set_application_status "AP" novice)));
      [unfold eligible; cbn; apply andb_false_iff; left; apply andb_false_r
      |apply accept_application_authors]. }
  assert (Hd : novice_list cfg backend None
                 (fst (decline_application cfg backend novice request w)) =
               without (id novice) (novice_list cfg backend None w)).
  { apply (queue_after_save (set_application_date None (set_application_status "OH" novice)));
      [unfold eligible; cbn; apply andb_false_r
      |apply decline_application_authors]. }
  rewrite Ha, Hd. repeat split; apply contains_without.
Qed.

End QueueAfter.

(** ** Requests around a decision *)

Lemma filter_map_stable {A} (p : A -> bool) (f : A -> A) l :
  (forall a, In a l -> p (f a) = p a) ->
  filter p (map f l) = map f (filter p l).
Proof.
  induction l as [|a l IH]; intros H; [reflexivity|].
  cbn [map filter]. rewrite (H a (or_introl eq_refl)), IH.
  - destruct (p a); reflexivity.
  - intros b Hb. apply H. right. exact Hb.
Qed.

Lemma objects_get_pure p e w : fst (objects_get p e w) = w.
Proof. unfold objects_get. destruct (filter p (authors w)) as [|a [|b l]]; reflexivity. Qed.

(** The row saved over an applicant's row is the one found under the
    applicant's username afterwards. *)
Lemma get_object_after_save name novice u w w' :
  NoDup (map id (authors w)) ->
  get_object_or_404 name w = (w, Return novice) ->
  id u = id novice -> username u = username novice ->
  authors w' = save_row u (authors w) ->
  get_object_or_404 name w' = (w', Return u).
Proof.
  intros Hnd Hget Hid Hname Hw.
  destruct (get_object_or_404_inv _ _ _ _ Hget) as (_ & Hin & _).
  assert (Hf : filter (fun a => (username a =? name)%string) (authors w) = [novice]).
  { unfold get_object_or_404, objects_get in Hget.
    destruct (filter _ (authors w)) as [|x [|y l]]; inversion Hget; reflexivity. }
  unfold get_object_or_404, objects_get. rewrite Hw.
  rewrite (save_row_present novice u w Hin Hid).
  rewrite filter_map_stable.
  - rewrite Hf. cbn [map]. rewrite Z.eqb_refl. reflexivity.
  - intros a Ha. destruct (Z.eqb_spec (id a) (id novice)) as [E|E]; [|reflexivity].
    rewrite (primary_key_unique _ a novice Hnd Ha Hin E), Hname. reflexivity.
Qed.

Section AroundDecision.

Variable cfg : Settings.
Variable backend : Backend.

Lemma dispatch_after_removal again novice u w w' :
  NoDup (map id (authors w)) ->
  get_object_or_404 (kwargs_username again) w = (w, Return novice) ->
  id u = id novice -> username u = username novice -> eligible u = false ->
  authors w' = save_row u (authors w) ->
  dispatch cfg backend again w' =
  (rejected "kullanıcı çaylak onay listesinde değil." w', Return (Redirect admin_novice_list)).
Proof.
  intros Hnd Hget Hid Hname Hu Hw.
  pose proof (get_object_after_save _ novice u w w' Hnd Hget Hid Hname Hw) as Hget'.
  pose proof (select_novice_cases cfg backend again w' u Hget') as Hsel.
  rewrite (queue_after_save cfg backend u w w' Hu Hw), contains_without in Hsel.
  cbn [negb] in Hsel. unfold dispatch, bind. rewrite Hsel. reflexivity.
Qed.

(** X4.  Once an applicant has been accepted or declined (even if the
    decision raised after saving the row), every further request for that
    applicant is turned down: it queues the not-in-the-list error and
    redirects to the overview. *)
Theorem decided_applicant_rejected novice request again w :
  NoDup (map id (authors w)) ->
  get_object_or_404 (kwargs_username again) w = (w, Return novice) ->
  let accepted := fst (accept_application cfg backend novice request w) in
  let declined := fst (decline_application cfg backend novice request w) in
  dispatch cfg backend again accepted =
    (rejected "kullanıcı çaylak onay listesinde değil." accepted,
     Return (Redirect admin_novice_list)) /\
  dispatch cfg backend again declined =
    (rejected "kullanıcı çaylak onay listesinde değil." declined,
     Return (Redirect admin_novice_list)).
Proof.
  intros Hnd Hget. cbv zeta. split.
  - apply (dispatch_after_removal again novice
             (set_is_novice false (set_application_status "AP" novice)) w);
      try assumption; try reflexivity.
    + unfold eligible. cbn. apply andb_false_iff. left. apply andb_false_r.
    + apply accept_application_authors.
  - apply (dispatch_after_removal again novice
             (set_application_date None (set_application_status "OH" novice)) w);
      try assumption; try reflexivity.
    + unfold eligible. cbn. apply andb_false_r.
    + apply decline_application_authors.
Qed.

(** X5.  After a decision that returned, the POST redirects to the overview
    when [submit_type] is [redirect_back], and otherwise to the detail view
    of the user named by [submit_type]; the store is as the decision left
    it. *)
Theorem post_decision_redirect request w novice target :
  method request = POST ->
  select_novice cfg backend request w = (w, Return (Some novice)) ->
  POST_submit_type request = Some target ->
  (POST_operation request = Some "accept" ->
   forall w' b, accept_application cfg backend novice request w = (w', Return b) ->
     dispatch cfg backend request w =
     (w', Return (Redirect (if (target =? "redirect_back")%string then admin_novice_list
                            else admin_novice_lookup (Some target))))) /\
  (POST_operation request = Some "decline" ->
   forall w' b, decline_application cfg backend novice request w = (w', Return b) ->
     dispatch cfg backend request w =
     (w', Return (Redirect (if (target =? "redirect_back")%string then admin_novice_list
                            else admin_novice_lookup (Some target))))).
Proof.
  intros Hpost Hsel Htarget. split; intros Hop w' b Hrun.
  - rewrite (dispatch_post_accept cfg backend request w novice Hpost Hsel Hop), Hrun, Htarget.
    reflexivity.
  - rewrite (dispatch_post_decline cfg backend request w novice Hpost Hsel Hop), Hrun, Htarget.
    reflexivity.
Qed.

(** X6.  A request for a username that no author has ends in [Http404],
    whatever its method, and changes nothing. *)
Theorem dispatch_unknown_user request w :
  (forall a, In a (authors w) -> username a <> kwargs_username request) ->
  dispatch cfg backend request w = (w, Raise Http404).
Proof.
  intros Hnone.
  assert (Hf : filter (fun a => (username a =? kwargs_username request)%string) (authors w) = []).
  { induction (authors w) as [|a t IH]; [reflexivity|].
    cbn [filter]. destruct (String.eqb_spec (username a) (kwargs_username request)) as [E|E].
    - exfalso. apply (Hnone a); [left; reflexivity|exact E].
    - apply IH. intros b Hb. apply Hnone. right. exact Hb. }
  unfold dispatch, select_novice, bind, get_object_or_404, objects_get. rewrite Hf. reflexivity.
Qed.

(** X7.  Every applicant shown on the overview page can be opened: when the
    username identifies the listed row, the request reaches the handler of
    its method.  Conversely an applicant that can be opened is, by primary
    key, one of the rows the overview shows. *)
Theorem listed_applicant_can_be_opened request w :
  (forall a, In a (novice_list cfg backend (Some 10%nat) w) ->
     get_object_or_404 (kwargs_username request) w = (w, Return a) ->
     dispatch cfg backend request w = View_dispatch cfg backend a request w) /\
  (forall w' novice, select_novice cfg backend request w = (w', Return (Some novice)) ->
     exists a, In a (novice_list cfg backend (Some 10%nat) w) /\ id a = id novice).
Proof.
  split.
  - intros a Hin Hget. apply dispatch_selected.
    rewrite (select_novice_cases cfg backend request w a Hget).
    change (novice_list cfg backend (Some 10%nat) w)
      with (firstn 10 (novice_list cfg backend None w)) in Hin.
    assert (Hten : contains a (firstn 10 (novice_list cfg backend None w)) = true)
      by (apply contains_spec; exists a; auto).
    assert (Hq : contains a (novice_list cfg backend None w) = true)
      by (apply contains_spec; exists a; split; [eapply firstn_incl; exact Hin|reflexivity]).
    rewrite Hq, Hten. reflexivity.
  - intros w' novice H.
    destruct (select_novice_inv cfg backend request w w' novice H) as (_ & _ & Hten).
    apply contains_spec in Hten. exact Hten.
Qed.

End AroundDecision.

(** ** The detail page *)

Section DetailPage.

Variable cfg : Settings.
Variable backend : Backend.

Lemma next_novice_pure novice w : fst (next_novice cfg backend novice w) = w.
Proof.
  unfold next_novice. destruct (last_activity novice) as [la|]; [|reflexivity].
  unfold bind, later_applicant, query, raise, ret.
  destruct (application_date novice) as [d|];
    destruct (time_threshold_24h cfg <=? la); try reflexivity.
  destruct (hd_error _); reflexivity.
Qed.

Lemma get_pure novice w : fst (get cfg backend novice w) = w.
Proof.
  unfold get, get_context_data, get_queryset, get_next_username, bind, query, ret.
  pose proof (next_novice_pure novice w) as H.
  destruct (next_novice cfg backend novice w) as [w1 [r|e]]; cbn in H |- *; exact H.
Qed.

(** X8.  The entries shown for an applicant are published entries of that
    applicant, at most ten, in ascending id order, and they are the ones
    with the smallest ids: every published entry of the applicant that is
    not shown has an id at least as large as every one shown.  When the
    applicant has at most ten published entries, all are shown. *)
Theorem get_queryset_first_ten novice w :
  exists shown,
    get_queryset novice w = (w, Return shown) /\
    (List.length shown <= 10)%nat /\
    (forall e, In e shown ->
       In e (entries w) /\ published e = true /\ author e = id novice) /\
    StronglySorted (fun e1 e2 => entry_id e1 <= entry_id e2) shown /\
    (forall e e', In e shown -> In e' (entries w) ->
       published e' = true -> author e' = id novice -> ~ In e' shown ->
       entry_id e <= entry_id e') /\
    ((List.length (filter (fun e => published e && (author e =? id novice)%Z) (entries w)) <= 10)%nat ->
     forall e, In e (entries w) -> published e = true -> author e = id novice -> In e shown).
Proof.
  set (mine := fun e => published e && (author e =? id novice)).
  set (by_id := fun e1 e2 => entry_id e1 <=? entry_id e2).
  set (sorted := order_by by_id (filter mine (entries w))).
  assert (Hs : StronglySorted (fun a b => by_id a b = true) sorted).
  { apply order_by_sorted; unfold by_id.
    - intros a b. rewrite !Z.leb_le. lia.
    - intros a b c. rewrite !Z.leb_le. lia. }
  assert (Hmine : forall e, In e sorted <->
            In e (entries w) /\ published e = true /\ author e = id novice).
  { intros e. unfold sorted. rewrite order_by_In, filter_In. unfold mine.
    rewrite andb_true_iff, Z.eqb_eq. tauto. }
  exists (firstn 10 sorted). split; [reflexivity|].
  split; [rewrite length_firstn; lia|].
  split; [intros e He; apply Hmine; eapply firstn_incl; exact He|].
  split.
  { rewrite <- (firstn_skipn 10 sorted) in Hs.
    assert (Hs1 : StronglySorted (fun a b => by_id a b = true) (firstn 10 sorted)).
    { clear -Hs. induction (firstn 10 sorted) as [|x l IH]; [constructor|].
      cbn [app] in Hs. inversion Hs as [|? ? Hs' Hx]; subst. constructor; [auto|].
      rewrite Forall_forall in *. intros y Hy. apply Hx. apply in_or_app. left. exact Hy. }
    apply (StronglySorted_weaken (fun a b => by_id a b = true)); [|exact Hs1].
    intros a b _ _. unfold by_id. apply Z.leb_le. }
  split.
  { intros e e' He Hin Hpub Hauth Hnot.
    assert (He' : In e' sorted) by (apply Hmine; auto).
    rewrite <- (firstn_skipn 10 sorted) in He', Hs.
    apply in_app_or in He'. destruct He' as [He'|He']; [contradiction|].
    apply Z.leb_le. apply (StronglySorted_app_inv _ _ _ Hs e e' He He'). }
  intros Hlen e Hin Hpub Hauth.
  rewrite firstn_all2; [apply Hmine; auto|].
  unfold sorted. rewrite (Permutation_length (order_by_perm by_id _)). exact Hlen.
Qed.

(** X9.  A GET never writes to the store: whatever the outcome (404,
    rejection, rendered page or an exception while computing the next
    applicant), the author, entry, message, audit and mail tables are as
    before, and for an applicant in the window not even a notification is
    queued.  For an applicant in the window that has a last activity and an
    application date the page is rendered with the applicant's first entries
    and the next username. *)
Theorem lookup_get_reads_only request w :
  method request = GET ->
  let w' := fst (dispatch cfg backend request w) in
  (authors w' = authors w /\ entries w' = entries w /\ messages w' = messages w /\
   log_entries w' = log_entries w /\ outbox w' = outbox w) /\
  (forall novice,
     select_novice cfg backend request w = (w, Return (Some novice)) -> w' = w) /\
  (forall novice la d,
     select_novice cfg backend request w = (w, Return (Some novice)) ->
     last_activity novice = Some la -> application_date novice = Some d ->
     exists shown following,
       get_queryset novice w = (w, Return shown) /\
       get_next_username cfg backend novice w = (w, Return following) /\
       dispatch cfg backend request w =
       (w, Return (Render "dictionary/admin/novice_lookup.html"
                     (mkContext (username novice ++ " isimli çaylağın ilk 10 entry'si")
                                shown following)))).
Proof.
  intros Hget. cbv zeta.
  assert (Hin : forall novice,
            select_novice cfg backend request w = (w, Return (Some novice)) ->
            dispatch cfg backend request w = get cfg backend novice w).
  { intros novice Hsel. rewrite (dispatch_selected cfg backend request w novice Hsel).
    unfold View_dispatch. rewrite Hget. reflexivity. }
  split; [|split].
  - destruct (get_object_or_404 (kwargs_username request) w) as [w1 [a|e]] eqn:Hobj.
    + destruct (get_object_or_404_inv _ _ _ _ Hobj) as (-> & _ & _).
      pose proof (select_novice_cases cfg backend request w a Hobj) as Hsel.
      destruct (contains a (novice_list cfg backend None w)); cbn [negb] in Hsel.
      * destruct (contains a (firstn 10 (novice_list cfg backend None w)));
          cbn [negb] in Hsel.
        -- rewrite (Hin a Hsel), get_pure. repeat split; reflexivity.
        -- unfold dispatch, bind. rewrite Hsel. repeat split; reflexivity.
      * unfold dispatch, bind. rewrite Hsel. repeat split; reflexivity.
    + assert (Hw : w1 = w).
      { pose proof (objects_get_pure (fun a => (username a =? kwargs_username request)%string)
                      Http404 w) as Hp.
        unfold get_object_or_404 in Hobj. rewrite Hobj in Hp. exact Hp. }
      subst w1. unfold dispatch, select_novice, bind. rewrite Hobj. repeat split; reflexivity.
  - intros novice Hsel. rewrite (Hin novice Hsel). apply get_pure.
  - intros novice la d Hsel Hla Hd.
    destruct (next_novice_run cfg backend novice w la d Hla Hd)
      as (r1 & r2 & _ & _ & Hrun).
    eexists. eexists. split; [reflexivity|].
    split; [rewrite get_next_username_run, Hrun; reflexivity|].
    rewrite (Hin novice Hsel).
    unfold get, get_context_data, bind, get_queryset, query, ret.
    rewrite get_next_username_run, Hrun. reflexivity.
Qed.

End DetailPage.

(** ** The next applicant and the queue *)

Section NextInQueue.

Variable cfg : Settings.
Variable backend : Backend.

(** Where the row picked by [next_novice] comes from: the first search is
    made only for a current applicant at or above the threshold. *)
Lemma next_novice_origin novice w w' a :
  next_novice cfg backend novice w = (w', Return (Some a)) ->
  In a (authors w) /\
  exists la d, last_activity novice = Some la /\ application_date novice = Some d /\
    ((time_threshold_24h cfg <= la /\ later_above cfg d a) \/ later_below cfg d a).
Proof.
  intros H.
  destruct (next_novice_inv cfg backend novice w w' a H) as (Hin & d & Hd & _).
  split; [exact Hin|].
  destruct (last_activity novice) as [la|] eqn:Hla;
    [|unfold next_novice in H; rewrite Hla in H; discriminate].
  exists la, d. split; [reflexivity|]. split; [exact Hd|].
  destruct (later_applicant_spec cfg backend col_gt d w) as (r1 & E1 & S1).
  destruct (later_applicant_spec cfg backend col_lt d w) as (r2 & E2 & S2).
  destruct (next_novice_run cfg backend novice w la d Hla Hd) as (r1' & r2' & E1' & E2' & Hrun).
  rewrite E1 in E1'. rewrite E2 in E2'. inversion E1'. inversion E2'. subst r1' r2'.
  rewrite Hrun in H. inversion H as [[Hw Hr]]. clear H.
  destruct (Z.leb_spec (time_threshold_24h cfg) la) as [Hle|Hlt].
  - destruct r1 as [a1|].
    + inversion Hr. subst a1. left. split; [exact Hle|].
      apply later_candidate_above. apply S1.
    + subst r2. right. apply later_candidate_below. apply S2.
  - subst r2. right. apply later_candidate_below. apply S2.
Qed.

(** X10.  The username returned as next belongs to an applicant that stands
    in the unlimited queue somewhere after the current applicant. *)
Theorem next_stands_later_in_queue novice w :
  In novice (novice_list cfg backend None w) ->
  forall w' u, get_next_username cfg backend novice w = (w', Return (Some u)) ->
  exists a, username a = u /\ stands_before novice a (novice_list cfg backend None w).
Proof.
  intros Hq w' u H. rewrite get_next_username_run in H.
  destruct (next_novice cfg backend novice w) as [w1 [[a|]|e]] eqn:Hn; try discriminate.
  injection H as _ Hu. exists a. split; [exact Hu|].
  destruct (next_novice_origin novice w w1 a Hn) as (Hin & la & d & Hla & Hd & Hfrom).
  assert (Hdate : applied_after d a) by (destruct Hfrom as [[_ (_ & _ & Hp)]|(_ & _ & Hp)]; exact Hp).
  assert (Hel : eligible a = true).
  { destruct Hfrom as [[_ Hp]|Hp];
      [eapply later_above_eligible|eapply later_below_eligible]; exact Hp. }
  apply (StronglySorted_stands_before (ranks_before cfg backend)).
  - apply novice_list_sorted.
  - exact Hq.
  - apply novice_list_In. auto.
  - intros ->. destruct Hdate as (x & Hx & Hlt). rewrite Hd in Hx. injection Hx. lia.
  - unfold ranks_before, date_ascending. rewrite Hla, Hd.
    destruct Hdate as (x & Hx & Hlt). rewrite Hx.
    unfold tier_of.
    destruct Hfrom as [[Hle (_ & (la' & Hla' & Hgt) & _)]|(_ & (la' & Hla' & Hgt) & _)];
      rewrite Hla';
      destruct (Z.leb_spec (time_threshold_24h cfg) la),
               (Z.leb_spec (time_threshold_24h cfg) la'); lia.
Qed.

End NextInQueue.

(** ** Decisions that fail half way *)

Lemma filter_id_absent k t :
  (forall a, In a t -> id a <> k) -> filter (fun a => id a =? k) t = [].
Proof.
  induction t as [|a t IH]; intros H; [reflexivity|].
  cbn [filter]. destruct (Z.eqb_spec (id a) k) as [E|E].
  - exfalso. apply (H a); [left; reflexivity|exact E].
  - apply IH. intros b Hb. apply H. right. exact Hb.
Qed.

Section HalfWay.

Variable cfg : Settings.
Variable backend : Backend.

(** X11.  A decline whose mail has an address to go to and is not delivered
    raises the transport's exception after its writes: the applicant's
    published entries are gone, the row is saved as on-hold, the audit
    record and the direct message are stored; nothing is rolled back, no
    mail is recorded and no notification is queued. *)
Theorem decline_failure_keeps_writes novice request w sys :
  In novice (authors w) ->
  get_by_id (GENERIC_SUPERUSER_ID cfg) w = (w, Return sys) ->
  email novice <> "" ->
  smtp_delivers backend (decline_mail cfg novice) = false ->
  exists w',
    decline_application cfg backend novice request w =
      (w', Raise (smtp_error backend (decline_mail cfg novice))) /\
    entries w' = filter (fun e => negb (published e && (author e =? id novice))) (entries w) /\
    authors w' =
      map (fun a => if id a =? id novice
                    then set_application_date None (set_application_status "OH" novice)
                    else a) (authors w) /\
    (exists rec, log_entries w' = (log_entries w ++ [rec])%list /\ object_id rec = id novice) /\
    (exists msg, messages w' = (messages w ++ [msg])%list /\ recipient msg = id novice) /\
    outbox w' = outbox w /\ flash w' = flash w.
Proof.
  intros Hin Hsys Haddr Hdown. apply String.eqb_neq in Haddr.
  set (user := set_application_date None (set_application_status "OH" novice)).
  destruct (system_account_after_save cfg novice user w sys Hin eq_refl Hsys) as (s & Hs & Hid).
  rewrite decline_application_unfold. cbv zeta.
  cbn [authors record_effect set_log_entries set_authors set_entries].
  fold user. rewrite Hs, Haddr, Hdown.
  eexists. split; [reflexivity|].
  cbn -[String.append save_row user filter].
  split; [reflexivity|].
  split; [apply (save_row_present novice user w Hin eq_refl)|].
  split; [eexists; split; reflexivity|].
  split; [eexists; split; reflexivity|].
  split; reflexivity.
Qed.

(** X12.  When no author has the id [GENERIC_SUPERUSER_ID], a decision
    raises [DoesNotExist] after the row is saved (and, for a decline, the
    entries deleted) and the audit record written, and before any direct
    message or mail. *)
Theorem decision_without_system_account novice request w :
  In novice (authors w) ->
  (forall a, In a (authors w) -> id a <> GENERIC_SUPERUSER_ID cfg) ->
  (exists w',
     accept_application cfg backend novice request w = (w', Raise DoesNotExist) /\
     authors w' =
       map (fun a => if id a =? id novice
                     then set_is_novice false (set_application_status "AP" novice)
                     else a) (authors w) /\
     (exists rec, log_entries w' = (log_entries w ++ [rec])%list /\ object_id rec = id novice) /\
     entries w' = entries w /\ messages w' = messages w /\ outbox w' = outbox w /\
     flash w' = flash w) /\
  (exists w',
     decline_application cfg backend novice request w = (w', Raise DoesNotExist) /\
     authors w' =
       map (fun a => if id a =? id novice
                     then set_application_date None (set_application_status "OH" novice)
                     else a) (authors w) /\
     (exists rec, log_entries w' = (log_entries w ++ [rec])%list /\ object_id rec = id novice) /\
     entries w' = filter (fun e => negb (published e && (author e =? id novice))) (entries w) /\
     messages w' = messages w /\ outbox w' = outbox w /\ flash w' = flash w).
Proof.
  intros Hin Hnone.
  assert (Hf : forall user, id user = id novice ->
            filter (fun a => id a =? GENERIC_SUPERUSER_ID cfg) (save_row user (authors w)) = []).
  { intros user Hid. rewrite (save_row_present novice user w Hin Hid).
    rewrite <- Hid, filter_id_map, (filter_id_absent _ _ Hnone). reflexivity. }
  split.
  - set (user := set_is_novice false (set_application_status "AP" novice)).
    rewrite accept_application_unfold. cbv zeta.
    cbn [authors record_effect set_log_entries set_authors].
    fold user. rewrite (Hf user eq_refl).
    eexists. split; [reflexivity|]. cbn -[String.append save_row user].
    split; [apply (save_row_present novice user w Hin eq_refl)|].
    split; [eexists; split; reflexivity|]. repeat split; reflexivity.
  - set (user := set_application_date None (set_application_status "OH" novice)).
    rewrite decline_application_unfold. cbv zeta.
    cbn [authors record_effect set_log_entries set_authors set_entries].
    fold user. rewrite (Hf user eq_refl).
    eexists. split; [reflexivity|]. cbn -[String.append save_row user filter].
    split; [apply (save_row_present novice user w Hin eq_refl)|].
    split; [eexists; split; reflexivity|]. repeat split; reflexivity.
Qed.

End HalfWay.

(** ** The sample data, run through the further properties *)

Lemma novice_list_limit_witness :
  (List.length (filter eligible (authors Sample.world)) <= 10)%nat /\
  novice_list Sample.cfg Sample.backend (Some 10%nat) Sample.world =
  novice_list Sample.cfg Sample.backend None Sample.world.
Proof.
  assert (H : (List.length (filter eligible (authors Sample.world)) <= 10)%nat)
    by (vm_compute; lia).
  split; [exact H|].
  exact (proj2 (proj2 (proj2 (novice_list_limit Sample.cfg Sample.backend 10 Sample.world))) H).
Defined.

Lemma novice_list_view_witness :
  exists context,
    NoviceList.get Sample.cfg Sample.backend Sample.crowd =
      (Sample.crowd, Return (RenderList "dictionary/admin/novices.html" context)) /\
    List.length (object_list context) = 10%nat /\ novice_count context = 12%nat /\
    is_novice (Sample.applicant 3 "n03") = true.
Proof.
  destruct (novice_list_view Sample.cfg Sample.backend Sample.crowd)
    as (context & Hget & Hrows & Hcount & Hlen & Hall).
  exists context. split; [exact Hget|].
  split; [rewrite Hlen, Hcount; reflexivity|]. split; [rewrite Hcount; reflexivity|].
  apply (Hall (Sample.applicant 3 "n03")). rewrite Hrows.
  right. right. left. reflexivity.
Defined.

Lemma decided_applicant_rejected_witness :
  NoDup (map id (authors Sample.world)) /\
  get_object_or_404 "alice" Sample.world = (Sample.world, Return Sample.alice) /\
  snd (dispatch Sample.cfg Sample.backend Sample.delete_alice
         (fst (accept_application Sample.cfg Sample.backend Sample.alice
                 Sample.accept_alice Sample.world))) =
  Return (Redirect admin_novice_list).
Proof.
  assert (Hnd : NoDup (map id (authors Sample.world))).
  { simpl. repeat constructor; simpl; intuition discriminate. }
  split; [exact Hnd|]. split; [reflexivity|].
  rewrite (proj1 (decided_applicant_rejected Sample.cfg Sample.backend Sample.alice
                    Sample.accept_alice Sample.delete_alice Sample.world Hnd eq_refl)).
  reflexivity.
Defined.

Lemma post_decision_redirect_witness :
  method Sample.accept_alice = POST /\
  POST_submit_type Sample.accept_alice = Some "bob" /\
  snd (dispatch Sample.cfg Sample.backend Sample.accept_alice Sample.world) =
  Return (Redirect (admin_novice_lookup (Some "bob"))).
Proof.
  split; [reflexivity|]. split; [reflexivity|].
  rewrite (proj1 (post_decision_redirect Sample.cfg Sample.backend Sample.accept_alice
                    Sample.world Sample.alice "bob" eq_refl eq_refl eq_refl)
             eq_refl _ true eq_refl).
  reflexivity.
Defined.

Lemma dispatch_unknown_user_witness :
  dispatch Sample.cfg Sample.backend (mkRequest POST Sample.root "zed" (Some "accept") None)
    Sample.world = (Sample.world, Raise Http404).
Proof.
  apply dispatch_unknown_user. simpl.
  intros a [<-|[<-|[<-|[<-|[]]]]]; discriminate.
Defined.

Lemma listed_applicant_can_be_opened_witness :
  In (Sample.applicant 3 "n03") (novice_list Sample.cfg Sample.backend (Some 10%nat) Sample.crowd) /\
  dispatch Sample.cfg Sample.backend (mkRequest GET Sample.root "n03" None None) Sample.crowd =
  View_dispatch Sample.cfg Sample.backend (Sample.applicant 3 "n03")
    (mkRequest GET Sample.root "n03" None None) Sample.crowd.
Proof.
  assert (Hin : In (Sample.applicant 3 "n03")
                  (novice_list Sample.cfg Sample.backend (Some 10%nat) Sample.crowd))
    by (right; right; left; reflexivity).
  split; [exact Hin|].
  apply (proj1 (listed_applicant_can_be_opened Sample.cfg Sample.backend
                  (mkRequest GET Sample.root "n03" None None) Sample.crowd)
           (Sample.applicant 3 "n03") Hin eq_refl).
Defined.

Lemma get_queryset_first_ten_witness :
  exists shown,
    get_queryset Sample.alice Sample.world = (Sample.world, Return shown) /\
    In (mkEntry 1 2 true) shown.
Proof.
  destruct (get_queryset_first_ten Sample.alice Sample.world)
    as (shown & Hget & _ & _ & _ & _ & Hall).
  exists shown. split; [exact Hget|].
  apply Hall; [vm_compute; lia|simpl; auto|reflexivity|reflexivity].
Defined.

Lemma lookup_get_reads_only_witness :
  select_novice Sample.cfg Sample.backend (mkRequest GET Sample.root "alice" None None)
    Sample.world = (Sample.world, Return (Some Sample.alice)) /\
  fst (dispatch Sample.cfg Sample.backend (mkRequest GET Sample.root "alice" None None)
         Sample.world) = Sample.world.
Proof.
  split; [reflexivity|].
  apply (proj1 (proj2 (lookup_get_reads_only Sample.cfg Sample.backend
                         (mkRequest GET Sample.root "alice" None None) Sample.world eq_refl))
           Sample.alice eq_refl).
Defined.

Lemma next_stands_later_in_queue_witness :
  In Sample.alice (novice_list Sample.cfg Sample.backend None Sample.world) /\
  exists a, username a = "bob" /\
    stands_before Sample.alice a (novice_list Sample.cfg Sample.backend None Sample.world).
Proof.
  assert (Hin : In Sample.alice (novice_list Sample.cfg Sample.backend None Sample.world))
    by (left; reflexivity).
  split; [exact Hin|].
  apply (next_stands_later_in_queue Sample.cfg Sample.backend Sample.alice Sample.world Hin
           Sample.world "bob" eq_refl).
Defined.

Lemma decline_failure_keeps_writes_witness :
  email Sample.alice <> "" /\
  smtp_delivers Sample.backend_down (decline_mail Sample.cfg Sample.alice) = false /\
  exists w',
    decline_application Sample.cfg Sample.backend_down Sample.alice Sample.decline_alice
      Sample.world = (w', Raise ConnectionRefusedError) /\
    entries w' = [mkEntry 2 2 false; mkEntry 3 3 true].
Proof.
  split; [discriminate|]. split; [reflexivity|].
  destruct (decline_failure_keeps_writes Sample.cfg Sample.backend_down Sample.alice
              Sample.decline_alice Sample.world Sample.root)
    as (w' & Hrun & He & _); [simpl; auto|reflexivity|discriminate|reflexivity|].
  exists w'. split; [exact Hrun|]. rewrite He. reflexivity.
Defined.

Lemma decision_without_system_account_witness :
  exists w',
    accept_application Sample.cfg Sample.backend Sample.alice Sample.accept_alice
      (mkWorld [Sample.alice; Sample.bob] [] [] [] [] [] []) = (w', Raise DoesNotExist) /\
    messages w' = [].
Proof.
  assert (Hnone : forall a, In a [Sample.alice; Sample.bob] ->
                            id a <> GENERIC_SUPERUSER_ID Sample.cfg)
    by (intros a [<-|[<-|[]]]; discriminate).
  destruct (proj1 (decision_without_system_account Sample.cfg Sample.backend Sample.alice
                     Sample.accept_alice (mkWorld [Sample.alice; Sample.bob] [] [] [] [] [] [])
                     (or_introl eq_refl) Hnone))
    as (w' & Hrun & _ & _ & _ & Hm & _).
  exists w'. split; [exact Hrun|exact Hm].
Defined.
